(** * Kamaji: the DataStore controller

    A shallow embedding of [controllers/datastore_controller.go]: the
    reconciliation of the shared [DataStore] descriptor, the reverse index
    it writes into [status.usedBy], the events it sends on the
    [TenantControlPlaneTrigger] channel and the watch predicate installed by
    [SetupWithManager]; and of [func main], which wires the controller to
    the TenantControlPlane reconciler and starts the manager.

    Go strings are byte sequences and are modelled by [string] (a list of
    8-bit characters); the ordering of [sort.Strings] is the byte-wise
    lexicographic one, [String.le]. The Kubernetes client is modelled by an
    explicit cluster state with injected faults; every call is recorded,
    together with the cluster it was issued against, in a trace. *)

From stdpp Require Import gmap strings list sorting.

Open Scope string_scope.
Open Scope list_scope.

(** ** k8s.io/apimachinery/pkg/types *)
Module types.

Record NamespacedName := mkNamespacedName { Namespace : string; Name : string }.

#[global] Instance NamespacedName_eq_dec : EqDecision NamespacedName.
Proof. solve_decision. Defined.

Definition toPair (n : NamespacedName) : string * string :=
  (Namespace n, Name n).

Definition ofPair (p : string * string) : NamespacedName :=
  mkNamespacedName p.1 p.2.

#[global] Instance NamespacedName_countable : Countable NamespacedName :=
  inj_countable' toPair ofPair
    (λ n, match n with mkNamespacedName _ _ => eq_refl end).

(** [func (n NamespacedName) String() string]: namespace, separator, name. *)
Definition String_ (n : NamespacedName) : string :=
  Namespace n +:+ "/" +:+ Name n.

End types.

(** ** Errors: k8s status errors, plain errors and [github.com/pkg/errors] *)
Module errors.

Inductive StatusReason :=
| StatusReasonUnknown
| StatusReasonNotFound
| StatusReasonConflict
| StatusReasonTimeout
| StatusReasonInternalError.

Inductive error :=
| StatusError (reason : StatusReason) (message : string)
| errorString (message : string)
| withMessage (cause : error) (msg : string).

(** [errors.Wrap(err, message)]: nil stays nil, otherwise the cause is
    annotated with the message (the recorded stack is not modelled). *)
Definition Wrap (err : option error) (message : string) : option error :=
  match err with
  | None => None
  | Some e => Some (withMessage e message)
  end.

(** The [Error()] method. *)
Fixpoint Error (e : error) : string :=
  match e with
  | StatusError _ m => m
  | errorString m => m
  | withMessage cause msg => msg +:+ ": " +:+ Error cause
  end.

(** [k8serrors.ReasonForError]: the reason of the first status error in
    the chain of causes. *)
Fixpoint ReasonForError (e : error) : StatusReason :=
  match e with
  | StatusError r _ => r
  | errorString _ => StatusReasonUnknown
  | withMessage cause _ => ReasonForError cause
  end.

Definition IsNotFound (e : error) : bool :=
  match ReasonForError e with
  | StatusReasonNotFound => true
  | _ => false
  end.

End errors.
Export errors.

(** ** k8s.io/apimachinery/pkg/util/sets: [sets.String] *)
Module sets.

Definition NewString : gset string := ∅.

Definition Insert (s : gset string) (item : string) : gset string :=
  {[ item ]} ∪ s.

(** [List] returns the members as a sorted slice. *)
Definition List (s : gset string) : list string :=
  merge_sort String.le (elements s).

End sets.

(** ** github.com/clastix/kamaji/api/v1alpha1: the fields the controller reads *)
Module kamajiv1alpha1.

(** Modelled from the spec: the [ContentRef] type is declared outside the
    sources at hand; it is a pointer to a secret-like object plus a key. *)
Record ContentRef := mkContentRef {
  SecretRef : types.NamespacedName;
  KeyPath : string
}.

Record CertificateAuthority_ := mkCertificateAuthority {
  caCertificate : ContentRef
}.

Record ClientCertificate_ := mkClientCertificate {
  Certificate : ContentRef;
  PrivateKey : ContentRef
}.

Record TLSConfig_ := mkTLSConfig {
  CertificateAuthority : CertificateAuthority_;
  ClientCertificate : ClientCertificate_
}.

Record DataStoreSpec := mkDataStoreSpec { TLSConfig : TLSConfig_ }.

Record DataStoreStatus := mkDataStoreStatus { UsedBy : list string }.

Record DataStore := mkDataStore {
  dsNamespace : string;
  dsName : string;
  Spec : DataStoreSpec;
  Status : DataStoreStatus
}.

(** [ds.Status.UsedBy = usedBy] *)
Definition setUsedBy (ds : DataStore) (usedBy : list string) : DataStore :=
  {| dsNamespace := dsNamespace ds; dsName := dsName ds;
     Spec := Spec ds; Status := {| UsedBy := usedBy |} |}.

(** Of a TenantControlPlane only the object metadata is read here. *)
Record TenantControlPlane := mkTenantControlPlane {
  GetNamespace : string;
  GetName : string;
  ResourceVersion : string
}.

End kamajiv1alpha1.

(** ** The cluster seen through [client.Client] *)

Definition bytes := list Byte.byte.

(** What the API server stores for a DataStore under its key. *)
Record StoredDataStore := mkStored {
  storedSpec : kamajiv1alpha1.DataStoreSpec;
  storedStatus : kamajiv1alpha1.DataStoreStatus
}.

Record Cluster := mkCluster {
  datastores : gmap types.NamespacedName StoredDataStore;
  (** the items a list call returns, in the order it returns them *)
  tenantControlPlanes : list kamajiv1alpha1.TenantControlPlane;
  (** the Content Resolver: an opaque capability of the cluster *)
  resolve : kamajiv1alpha1.ContentRef → error + bytes;
  (** injected failures of the three store operations *)
  getFault : option error;
  listFault : option error;
  updateFault : option error
}.

Definition setDatastores
    (c : Cluster) (m : gmap types.NamespacedName StoredDataStore) : Cluster :=
  {| datastores := m;
     tenantControlPlanes := tenantControlPlanes c;
     resolve := resolve c;
     getFault := getFault c;
     listFault := listFault c;
     updateFault := updateFault c |}.

(** [event.GenericEvent{Object: &tcp}] *)
Record GenericEvent := mkGenericEvent { Object : kamajiv1alpha1.TenantControlPlane }.

Inductive Call :=
| CallGet (key : types.NamespacedName)
| CallGetContent (ref : kamajiv1alpha1.ContentRef)
| CallList
| CallStatusUpdate (obj : kamajiv1alpha1.DataStore)
| CallSend (ev : GenericEvent).

(** A trace entry: the call and the cluster it was issued against. *)
Definition Entry : Type := Call * Cluster.

(** ** The monad of the controller: cluster state and a trace of calls *)
Definition M (A : Type) : Type := Cluster → A * Cluster * list Entry.

Definition ret {A} (a : A) : M A := λ c, (a, c, []).

Definition bind {A B} (m : M A) (f : A → M B) : M B :=
  λ c, let '(a, c1, t1) := m c in
       let '(b, c2, t2) := f a c1 in
       (b, c2, t1 ++ t2).

Notation "x <~ m ;; k" := (bind m (λ x, k))
  (at level 100, m at next level, right associativity).

Definition result {A} (r : A * Cluster * list Entry) : A := r.1.1.
Definition final {A} (r : A * Cluster * list Entry) : Cluster := r.1.2.
Definition trace {A} (r : A * Cluster * list Entry) : list Entry := r.2.

(** The events put on the channel, oldest first. *)
Definition sent (t : list Entry) : list GenericEvent :=
  omap (λ e : Entry, match e.1 with CallSend ev => Some ev | _ => None end) t.

(** The references handed to the Content Resolver, oldest first. *)
Definition resolved (t : list Entry) : list kamajiv1alpha1.ContentRef :=
  omap (λ e : Entry, match e.1 with CallGetContent r => Some r | _ => None end) t.

Module client.
Import kamajiv1alpha1.

Definition objectKey (ds : DataStore) : types.NamespacedName :=
  types.mkNamespacedName (dsNamespace ds) (dsName ds).

Definition getOutcome (c : Cluster) (key : types.NamespacedName)
    : error + DataStore :=
  match getFault c with
  | Some e => inl e
  | None =>
      match datastores c !! key with
      | None => inl (StatusError StatusReasonNotFound "not found")
      | Some s =>
          inr (mkDataStore (types.Namespace key) (types.Name key)
                           (storedSpec s) (storedStatus s))
      end
  end.

Definition Get (key : types.NamespacedName) : M (error + DataStore) :=
  λ c, (getOutcome c key, c, [(CallGet key, c)]).

Definition listOutcome (c : Cluster) : error + list TenantControlPlane :=
  match listFault c with
  | Some e => inl e
  | None => inr (tenantControlPlanes c)
  end.

Definition List : M (error + list TenantControlPlane) :=
  λ c, (listOutcome c, c, [(CallList, c)]).

(** [Status().Update]: only the status subresource of the stored object
    changes, and only when the write succeeds. *)
Definition statusUpdateOutcome (c : Cluster) (ds : DataStore)
    : option error * Cluster :=
  match updateFault c with
  | Some e => (Some e, c)
  | None =>
      match datastores c !! objectKey ds with
      | None => (Some (StatusError StatusReasonNotFound "not found"), c)
      | Some s =>
          (None,
           setDatastores c
             (<[objectKey ds := mkStored (storedSpec s) (Status ds)]>
                (datastores c)))
      end
  end.

Definition StatusUpdate (ds : DataStore) : M (option error) :=
  λ c, let '(e, c') := statusUpdateOutcome c ds in
       (e, c', [(CallStatusUpdate ds, c)]).

End client.

(** Modelled from the spec: [ContentRef.GetContent] is declared outside the
    sources at hand; it resolves a reference to bytes or fails, through the
    Content Resolver. *)
Definition GetContent (ref : kamajiv1alpha1.ContentRef) : M (error + bytes) :=
  λ c, (resolve c ref, c, [(CallGetContent ref, c)]).

(** [r.TenantControlPlaneTrigger <- ev]: a blocking send; it has no failure
    outcome and leaves the cluster as it is. *)
Definition chanSend (ev : GenericEvent) : M unit :=
  λ c, (tt, c, [(CallSend ev, c)]).

(** ** sigs.k8s.io/controller-runtime/pkg/reconcile *)
Module reconcile.

Record Request := mkRequest { NamespacedName : types.NamespacedName }.

Record Result := mkResult { Requeue : bool; RequeueAfter : Z }.

(** [reconcile.Result{}] *)
Definition Result0 : Result := {| Requeue := false; RequeueAfter := 0 |}.

End reconcile.

(** ** The controller *)
Module controllers.
Import kamajiv1alpha1.

(** The reconciler. Its client is the cluster threaded by [M]; what it sends
    on [TenantControlPlaneTrigger] is read off the trace with [sent]. *)
Record DataStore := mkDataStore { ResourceName : string }.

(** Modelled from the spec: [getNamespacedName] is declared in another file
    of the package; it pairs a namespace and a name into the identity that
    prints as "namespace/name". *)
Definition getNamespacedName (namespace name : string) : types.NamespacedName :=
  types.mkNamespacedName namespace name.

Definition identity (tcp : TenantControlPlane) : string :=
  types.String_ (getNamespacedName (GetNamespace tcp) (GetName tcp)).

(** The loop filling [tcpSets]. *)
Definition tcpSets (items : list TenantControlPlane) : gset string :=
  foldl (λ s tcp, sets.Insert s (identity tcp)) sets.NewString items.

(** What is assigned to [ds.Status.UsedBy]. *)
Definition usedByOf (items : list TenantControlPlane) : list string :=
  sets.List (tcpSets items).

(** The loop sending one event per item of [tcpList.Items]. *)
Fixpoint trigger (items : list TenantControlPlane) : M unit :=
  match items with
  | [] => ret tt
  | i :: rest =>
      let tcp := i in
      _ <~ chanSend (mkGenericEvent tcp) ;;
      trigger rest
  end.

Definition Reconcile (r : DataStore) (request : reconcile.Request)
    : M (reconcile.Result * option error) :=
  got <~ client.Get (reconcile.NamespacedName request) ;;
  match got with
  | inl err =>
      if IsNotFound err then ret (reconcile.Result0, None)
      else ret (reconcile.Result0, Some err)
  | inr ds =>
  ca <~ GetContent (caCertificate (CertificateAuthority (TLSConfig (Spec ds)))) ;;
  match ca with
  | inl err =>
      ret (reconcile.Result0, Wrap (Some err) "invalid Certificate Authority data")
  | inr _ =>
  crt <~ GetContent (Certificate (ClientCertificate (TLSConfig (Spec ds)))) ;;
  match crt with
  | inl err =>
      ret (reconcile.Result0, Wrap (Some err) "invalid Client Certificate data")
  | inr _ =>
  key <~ GetContent (PrivateKey (ClientCertificate (TLSConfig (Spec ds)))) ;;
  match key with
  | inl err =>
      ret (reconcile.Result0, Wrap (Some err) "invalid Client Certificate data")
  | inr _ =>
  tcpList <~ client.List ;;
  match tcpList with
  | inl err => ret (reconcile.Result0, Some err)
  | inr items =>
  let ds := setUsedBy ds (usedByOf items) in
  upd <~ client.StatusUpdate ds ;;
  match upd with
  | Some err => ret (reconcile.Result0, Some err)
  | None =>
  _ <~ trigger items ;;
  ret (reconcile.Result0, None)
  end end end end end end.

(** *** The watch predicate of [SetupWithManager] *)

(** The function handed to [predicate.NewPredicateFuncs]. *)
Definition watchFilter (r : DataStore) (object : kamajiv1alpha1.DataStore) : bool :=
  String.eqb (dsName object) (ResourceName r).

End controllers.

(** ** sigs.k8s.io/controller-runtime: events, predicates, dispatch *)
Module predicate.

Inductive Event :=
| CreateEvent (Object : kamajiv1alpha1.DataStore)
| UpdateEvent (ObjectOld ObjectNew : kamajiv1alpha1.DataStore)
| DeleteEvent (Object : kamajiv1alpha1.DataStore)
| GenericEvent (Object : kamajiv1alpha1.DataStore).

Record Funcs := mkFuncs {
  CreateFunc : kamajiv1alpha1.DataStore → bool;
  UpdateFunc : kamajiv1alpha1.DataStore → kamajiv1alpha1.DataStore → bool;
  DeleteFunc : kamajiv1alpha1.DataStore → bool;
  GenericFunc : kamajiv1alpha1.DataStore → bool
}.

(** [predicate.NewPredicateFuncs]: the filter is applied to the object of a
    create, delete or generic event and to the new object of an update. *)
Definition NewPredicateFuncs (filter : kamajiv1alpha1.DataStore → bool) : Funcs :=
  {| CreateFunc := filter;
     UpdateFunc := λ _ new, filter new;
     DeleteFunc := filter;
     GenericFunc := filter |}.

(** The object a change notification is about. *)
Definition subject (e : Event) : kamajiv1alpha1.DataStore :=
  match e with
  | CreateEvent o | DeleteEvent o | GenericEvent o => o
  | UpdateEvent _ new => new
  end.

Definition accepts (p : Funcs) (e : Event) : bool :=
  match e with
  | CreateEvent o => CreateFunc p o
  | UpdateEvent old new => UpdateFunc p old new
  | DeleteEvent o => DeleteFunc p o
  | GenericEvent o => GenericFunc p o
  end.

End predicate.

Module controllerruntime.

(** The predicates [SetupWithManager] registers for the DataStore kind. *)
Definition SetupWithManager (r : controllers.DataStore) : predicate.Funcs :=
  predicate.NewPredicateFuncs (controllers.watchFilter r).

(** A controller built by [For(obj, WithPredicates(p))]: a change
    notification the predicates admit is turned into a request for its
    object and reconciled; any other is dropped. *)
Definition dispatch (r : controllers.DataStore) (e : predicate.Event)
    : M (option (reconcile.Result * option error)) :=
  if predicate.accepts (SetupWithManager r) e then
    out <~ controllers.Reconcile r
             (reconcile.mkRequest (client.objectKey (predicate.subject e))) ;;
    ret (Some out)
  else ret None.

End controllerruntime.

(** ** The program entry point: [func main] *)
Module main.

(** The configuration read by [config.InitConfig]: a key-value lookup. *)
Record Conf := mkConf {
  GetString : string → string;
  GetBool : string → bool
}.

(** [ctrl.Options], the fields [main] sets (the scheme is the package-level
    one). *)
Record Options := mkOptions {
  MetricsBindAddress : string;
  Port : Z;
  HealthProbeBindAddress : string;
  LeaderElection : bool;
  LeaderElectionID : string
}.

(** The manager [ctrl.NewManager] returns, known by the options it was
    created with; its client and scheme are handles on it. *)
Record Manager := mkManager { managerOptions : Options }.

Inductive ClientHandle := GetClient (mgr : Manager).
Inductive SchemeHandle := GetScheme (mgr : Manager).

(** [controllers.TenantControlPlaneChannel]: a channel of generic events.
    A channel is a reference: two channels are the same when they come from
    the same [make], which [chanId] records. *)
Record Chan := mkChan { chanId : nat; capacity : nat }.

(** [make(T)] without a size: a new channel of capacity 0, distinct from
    the [made] channels the program made before. *)
Definition make (made : nat) : Chan := {| chanId := made; capacity := 0 |}.

Record TenantControlPlaneReconcilerConfig := mkReconcilerConfig {
  DataStoreName : string;
  KineContainerImage : string;
  TmpBaseDirectory : string
}.

Record TenantControlPlaneReconciler := mkReconciler {
  Client : ClientHandle;
  Scheme : SchemeHandle;
  Config : TenantControlPlaneReconcilerConfig;
  TriggerChan : Chan
}.

(** The build and runtime constants the start-up banner prints. *)
Record BuildInfo := mkBuildInfo {
  GitTag : string;
  GitCommit : string;
  GitDirty : string;
  GitRepo : string;
  BuildTime : string;
  goVersion : string;
  GOOS : string;
  GOARCH : string
}.

(** What the surroundings of [main] answer to each of its calls. *)
Record World := mkWorld {
  internal : BuildInfo;
  InitConfig : error + Conf;
  (** [ctrl.GetConfigOrDie]: [false] when no cluster configuration can be
      loaded, in which case the call itself ends the process *)
  haveRestConfig : bool;
  NewManager : Options → option error;
  (** the outcome of [(&controllers.DataStore{...}).SetupWithManager(mgr)] *)
  setupDataStore : Chan → controllers.DataStore → option error;
  (** the outcome of [reconciler.SetupWithManager(mgr)] *)
  setupReconciler : TenantControlPlaneReconciler → option error;
  AddHealthzCheck : string → option error;
  AddReadyzCheck : string → option error;
  Start : option error
}.

(** What [main] does, in order. *)
Inductive Action :=
| DoFatalf (msg : string)
| DoInfo (msg : string)
| DoError (err : error) (msg : string) (keysAndValues : list string)
| DoGetConfigOrDie
| DoNewManager (opts : Options)
| DoSetupDataStore (trigger : Chan) (r : controllers.DataStore)
| DoSetupReconciler (reconciler : TenantControlPlaneReconciler)
| DoAddHealthzCheck (name : string)
| DoAddReadyzCheck (name : string)
| DoStart
| DoExit (code : Z).

Definition banner (b : BuildInfo) : list Action :=
  [ DoInfo ("Kamaji version " +:+ GitTag b +:+ " " +:+ GitCommit b +:+ GitDirty b);
    DoInfo ("Build from: " +:+ GitRepo b);
    DoInfo ("Build date: " +:+ BuildTime b);
    DoInfo ("Go Version: " +:+ goVersion b);
    DoInfo ("Go OS/Arch: " +:+ GOOS b +:+ "/" +:+ GOARCH b) ].

Definition options (conf : Conf) : Options :=
  {| MetricsBindAddress := GetString conf "metrics-bind-address";
     Port := 9443%Z;
     HealthProbeBindAddress := GetString conf "health-probe-bind-address";
     LeaderElection := GetBool conf "leader-elect";
     LeaderElectionID := "799b98bc.clastix.io" |}.

(** [main]: the actions performed and the exit status of the process
    (0 when [main] returns). *)
Definition main (w : World) : list Action * Z :=
  match InitConfig w with
  | inl _ => ([DoFatalf "Error reading configuration."; DoExit 1%Z], 1%Z)
  | inr conf =>
  let t0 := banner (internal w) ++ [DoGetConfigOrDie] in
  if negb (haveRestConfig w) then (t0 ++ [DoExit 1%Z], 1%Z) else
  let t1 := t0 ++ [DoNewManager (options conf)] in
  match NewManager w (options conf) with
  | Some err => (t1 ++ [DoError err "unable to start manager" []; DoExit 1%Z], 1%Z)
  | None =>
  let mgr := mkManager (options conf) in
  let tcpChannel := make 0 in
  let ds := controllers.mkDataStore (GetString conf "datastore") in
  let t2 := t1 ++ [DoSetupDataStore tcpChannel ds] in
  match setupDataStore w tcpChannel ds with
  | Some err =>
      (t2 ++ [DoError err "unable to create controller" ["controller"; "DataStore"];
              DoExit 1%Z], 1%Z)
  | None =>
  let reconciler :=
    {| Client := GetClient mgr;
       Scheme := GetScheme mgr;
       Config := {| DataStoreName := GetString conf "datastore";
                    KineContainerImage := GetString conf "kine-image";
                    TmpBaseDirectory := GetString conf "tmp-directory" |};
       TriggerChan := tcpChannel |} in
  let t3 := t2 ++ [DoSetupReconciler reconciler] in
  match setupReconciler w reconciler with
  | Some err =>
      (t3 ++ [DoError err "unable to create controller" ["controller"; "Namespace"];
              DoExit 1%Z], 1%Z)
  | None =>
  let t4 := t3 ++ [DoAddHealthzCheck "healthz"] in
  match AddHealthzCheck w "healthz" with
  | Some err => (t4 ++ [DoError err "unable to set up health check" []; DoExit 1%Z], 1%Z)
  | None =>
  let t5 := t4 ++ [DoAddReadyzCheck "readyz"] in
  match AddReadyzCheck w "readyz" with
  | Some err => (t5 ++ [DoError err "unable to set up ready check" []; DoExit 1%Z], 1%Z)
  | None =>
  let t6 := t5 ++ [DoInfo "starting manager"; DoStart] in
  match Start w with
  | Some err => (t6 ++ [DoError err "problem running manager" []; DoExit 1%Z], 1%Z)
  | None => (t6, 0%Z)
  end end end end end end end.

End main.

(** ** Vocabulary of the statements *)

Import kamajiv1alpha1 controllers.

(** The reverse index stored for a descriptor, if the descriptor exists. *)
Definition usedByAt (c : Cluster) (key : types.NamespacedName)
    : option (list string) :=
  (λ s, UsedBy (storedStatus s)) <$> datastores c !! key.

(** The identity an event notifies. *)
Definition notified (ev : GenericEvent) : string := identity (Object ev).

(** Strictly ascending in the byte-wise lexicographic order: ordered and
    free of duplicates. *)
Definition ascending (l : list string) : Prop :=
  StronglySorted (strict String.le) l.

(** The three credential materials of a descriptor. *)
Inductive Material := CACertificate | ClientCert | ClientKey.

Definition materialRef (ds : kamajiv1alpha1.DataStore) (m : Material) : ContentRef :=
  match m with
  | CACertificate => caCertificate (CertificateAuthority (TLSConfig (Spec ds)))
  | ClientCert => Certificate (ClientCertificate (TLSConfig (Spec ds)))
  | ClientKey => PrivateKey (ClientCertificate (TLSConfig (Spec ds)))
  end.

(** Exactly the material [m] fails to resolve, with error [e]. *)
Definition onlyFails (c : Cluster) (ds : kamajiv1alpha1.DataStore)
    (m : Material) (e : error) : Prop :=
  resolve c (materialRef ds m) = inl e ∧
  ∀ m', m' ≠ m → ∃ b, resolve c (materialRef ds m') = inr b.

(** ** The paths of a reconciliation cycle

    [Cycle c key out] lists the eight ways a cycle started on cluster [c]
    for the identity [key] can end, each with its result, the cluster it
    leaves and the calls it made. [Reconcile_Cycle] shows that [Reconcile]
    always takes one of them. *)

(** The trace of the sending loop: one send per item, all issued against
    the same cluster. *)
Definition sends (items : list TenantControlPlane) (c : Cluster) : list Entry :=
  (λ i, (CallSend (mkGenericEvent i), c)) <$> items.

Definition getContentCalls (c : Cluster) (ds : kamajiv1alpha1.DataStore)
    (ms : list Material) : list Entry :=
  (λ m, (CallGetContent (materialRef ds m), c)) <$> ms.

Definition resolves (c : Cluster) (ds : kamajiv1alpha1.DataStore) (m : Material) : Prop :=
  ∃ b, resolve c (materialRef ds m) = inr b.

Inductive Cycle (c : Cluster) (key : types.NamespacedName)
  : (reconcile.Result * option error) * Cluster * list Entry → Prop :=
| cycle_absent err :
    client.getOutcome c key = inl err → IsNotFound err = true →
    Cycle c key ((reconcile.Result0, None), c, [(CallGet key, c)])
| cycle_get_failed err :
    client.getOutcome c key = inl err → IsNotFound err = false →
    Cycle c key ((reconcile.Result0, Some err), c, [(CallGet key, c)])
| cycle_ca_invalid ds err :
    client.getOutcome c key = inr ds →
    resolve c (materialRef ds CACertificate) = inl err →
    Cycle c key
      ((reconcile.Result0,
        Some (withMessage err "invalid Certificate Authority data")), c,
       (CallGet key, c) :: getContentCalls c ds [CACertificate])
| cycle_cert_invalid ds err :
    client.getOutcome c key = inr ds →
    resolves c ds CACertificate →
    resolve c (materialRef ds ClientCert) = inl err →
    Cycle c key
      ((reconcile.Result0,
        Some (withMessage err "invalid Client Certificate data")), c,
       (CallGet key, c) :: getContentCalls c ds [CACertificate; ClientCert])
| cycle_key_invalid ds err :
    client.getOutcome c key = inr ds →
    resolves c ds CACertificate → resolves c ds ClientCert →
    resolve c (materialRef ds ClientKey) = inl err →
    Cycle c key
      ((reconcile.Result0,
        Some (withMessage err "invalid Client Certificate data")), c,
       (CallGet key, c)
         :: getContentCalls c ds [CACertificate; ClientCert; ClientKey])
| cycle_list_failed ds err :
    client.getOutcome c key = inr ds →
    resolves c ds CACertificate → resolves c ds ClientCert →
    resolves c ds ClientKey →
    client.listOutcome c = inl err →
    Cycle c key
      ((reconcile.Result0, Some err), c,
       (CallGet key, c)
         :: getContentCalls c ds [CACertificate; ClientCert; ClientKey]
         ++ [(CallList, c)])
| cycle_write_failed ds items err :
    client.getOutcome c key = inr ds →
    resolves c ds CACertificate → resolves c ds ClientCert →
    resolves c ds ClientKey →
    client.listOutcome c = inr items →
    client.statusUpdateOutcome c (setUsedBy ds (usedByOf items)) = (Some err, c) →
    Cycle c key
      ((reconcile.Result0, Some err), c,
       (CallGet key, c)
         :: getContentCalls c ds [CACertificate; ClientCert; ClientKey]
         ++ [(CallList, c); (CallStatusUpdate (setUsedBy ds (usedByOf items)), c)])
| cycle_done ds items c' :
    client.getOutcome c key = inr ds →
    resolves c ds CACertificate → resolves c ds ClientCert →
    resolves c ds ClientKey →
    client.listOutcome c = inr items →
    client.statusUpdateOutcome c (setUsedBy ds (usedByOf items)) = (None, c') →
    Cycle c key
      ((reconcile.Result0, None), c',
       (CallGet key, c)
         :: getContentCalls c ds [CACertificate; ClientCert; ClientKey]
         ++ [(CallList, c); (CallStatusUpdate (setUsedBy ds (usedByOf items)), c)]
         ++ sends items c').

(** ** A cluster to run the controller on *)
Module demo.

Definition ref (k : string) : ContentRef :=
  mkContentRef (types.mkNamespacedName "kamaji-system" "datastore-tls") k.

Definition spec : DataStoreSpec :=
  mkDataStoreSpec
    (mkTLSConfig (mkCertificateAuthority (ref "ca.crt"))
                 (mkClientCertificate (ref "tls.crt") (ref "tls.key"))).

Definition key : types.NamespacedName := types.mkNamespacedName "" "store-a".

Definition request : reconcile.Request := reconcile.mkRequest key.

Definition r : controllers.DataStore := controllers.mkDataStore "store-a".

Definition descriptor : kamajiv1alpha1.DataStore :=
  kamajiv1alpha1.mkDataStore "" "store-a" spec (mkDataStoreStatus []).

Definition tcps : list TenantControlPlane :=
  [ mkTenantControlPlane "ns2" "b" "7";
    mkTenantControlPlane "ns1" "a" "3";
    mkTenantControlPlane "ns2" "b" "7" ].

Definition missing : error := errorString "secret not found".

(** A resolver that fails on the references whose key is in [broken]. *)
Definition resolver (broken : list string) (ref : ContentRef) : error + bytes :=
  if bool_decide (KeyPath ref ∈ broken) then inl missing else inr [].

Definition clusterOf (items : list TenantControlPlane)
    (broken : list string) (lf uf : option error) : Cluster :=
  mkCluster {[ key := mkStored spec (mkDataStoreStatus []) ]}
            items (resolver broken) None lf uf.

Definition cluster : list string → option error → option error → Cluster :=
  clusterOf tcps.

(** The same dependents, listed once each and in ascending order. *)
Definition tidy : Cluster :=
  clusterOf [ mkTenantControlPlane "ns1" "a" "3";
              mkTenantControlPlane "ns2" "b" "7" ] [] None None.

Definition healthy : Cluster := cluster [] None None.

Definition conflict : error :=
  StatusError StatusReasonConflict "the object has been modified".

End demo.

(** The order in which a list call answers is not fixed by the dependents
    that exist: the same dependents may be listed in another order by the
    next call. [relisted c items] is the cluster [c] in which the list call
    answers [items]; with [items] a permutation of [tenantControlPlanes c]
    it is the same state, listed in another order. *)
Definition relisted (c : Cluster) (items : list TenantControlPlane) : Cluster :=
  {| datastores := datastores c;
     tenantControlPlanes := items;
     resolve := resolve c;
     getFault := getFault c;
     listFault := listFault c;
     updateFault := updateFault c |}.

(** ** Counting the calls of a cycle *)





(** The materials resolved before [m] in a cycle. *)
Definition earlier (m : Material) : list Material :=
  match m with
  | CACertificate => []
  | ClientCert => [CACertificate]
  | ClientKey => [CACertificate; ClientCert]
  end.

(** The two controllers [main] builds from a configuration. *)
Definition dataStoreOf (conf : main.Conf) : controllers.DataStore :=
  controllers.mkDataStore (main.GetString conf "datastore").

Definition reconcilerOf (conf : main.Conf) : main.TenantControlPlaneReconciler :=
  main.mkReconciler
    (main.GetClient (main.mkManager (main.options conf)))
    (main.GetScheme (main.mkManager (main.options conf)))
    (main.mkReconcilerConfig (main.GetString conf "datastore")
                             (main.GetString conf "kine-image")
                             (main.GetString conf "tmp-directory"))
    (main.make 0).

(** Every step of the set-up succeeds under the configuration [conf]. *)
Definition setupSucceeds (w : main.World) (conf : main.Conf) : Prop :=
  main.InitConfig w = inr conf
  ∧ main.haveRestConfig w = true
  ∧ main.NewManager w (main.options conf) = None
  ∧ main.setupDataStore w (main.make 0) (dataStoreOf conf) = None
  ∧ main.setupReconciler w (reconcilerOf conf) = None
  ∧ main.AddHealthzCheck w "healthz" = None
  ∧ main.AddReadyzCheck w "readyz" = None.

(** ** Further scenarios *)
Module scenarios.

Definition timeout : error :=
  StatusError StatusReasonTimeout "the server was unable to return a response".

(** The store cannot be reached: every get fails with a timeout. *)
Definition unreachable : Cluster :=
  mkCluster {[ demo.key := mkStored demo.spec (mkDataStoreStatus []) ]}
            demo.tcps (demo.resolver []) (Some timeout) None None.

(** No dependent is left, but the descriptor still lists two of them. *)
Definition abandoned : Cluster :=
  mkCluster {[ demo.key := mkStored demo.spec (mkDataStoreStatus ["ns1/a"; "ns2/b"]) ]}
            [] (demo.resolver []) None None None.

(** A cluster in which the watched descriptor has been deleted. *)
Definition deleted : Cluster :=
  mkCluster ∅ demo.tcps (demo.resolver []) None None None.

Definition conf : main.Conf :=
  main.mkConf
    (λ k, if String.eqb k "datastore" then "store-a"
          else if String.eqb k "kine-image" then "rancher/kine:v0.9.2"
          else if String.eqb k "tmp-directory" then "/tmp/kamaji"
          else ":8080")
    (λ _, true).

Definition build : main.BuildInfo :=
  main.mkBuildInfo "v0.1.0" "1a2b3c4" "" "github.com/clastix/kamaji"
                   "2022-09-01" "go1.18" "linux" "amd64".

(** Everything around [main] works, but for the given outcome of the
    set-up of the TenantControlPlane reconciler and of the start. *)
Definition world (reconcilerSetup start : option error) : main.World :=
  main.mkWorld build (inr conf) true (λ _, None) (λ _ _, None)
               (λ _, reconcilerSetup) (λ _, None) (λ _, None) start.

End scenarios.

(** ** Basic facts *)

Lemma trigger_run items c : trigger items c = (tt, c, sends items c).
Proof.
  induction items as [|i items IH]; [done|].
  cbn [trigger]. unfold bind, chanSend. by rewrite IH.
Qed.

Lemma sent_sends items c : sent (sends items c) = mkGenericEvent <$> items.
Proof. induction items as [|i items IH]; [done|]. cbn. by f_equal. Qed.

Lemma resolved_sends items c : resolved (sends items c) = [].
Proof. by induction items. Qed.

Lemma statusUpdate_failed c ds e c' :
  client.statusUpdateOutcome c ds = (Some e, c') → c' = c.
Proof.
  unfold client.statusUpdateOutcome. intros H.
  repeat case_match; by simplify_eq.
Qed.

Lemma getOutcome_key c k ds :
  client.getOutcome c k = inr ds → client.objectKey ds = k.
Proof.
  unfold client.getOutcome. intros H.
  repeat case_match; simplify_eq. by destruct k.
Qed.

Lemma getOutcome_stored c k ds :
  client.getOutcome c k = inr ds →
  getFault c = None ∧
  datastores c !! k = Some (mkStored (Spec ds) (Status ds)).
Proof.
  unfold client.getOutcome. intros H.
  repeat case_match; simplify_eq. split; [done|]. cbn. by destruct s.
Qed.

(** ** The reverse index *)
Section index.

Implicit Types (items : list TenantControlPlane) (l : list string) (x : string).

Lemma elem_of_tcpSets x items :
  x ∈ tcpSets items ↔ x ∈ identity <$> items.
Proof.
  unfold tcpSets, sets.NewString.
  assert (∀ acc : gset string,
    x ∈ foldl (λ s tcp, sets.Insert s (identity tcp)) acc items
    ↔ x ∈ acc ∨ x ∈ identity <$> items) as Hgen.
  { induction items as [|i items IH]; intros acc; cbn [foldl fmap list_fmap].
    - rewrite elem_of_nil. tauto.
    - rewrite IH. unfold sets.Insert.
      rewrite elem_of_cons, elem_of_union, elem_of_singleton. tauto. }
  rewrite Hgen. split; [intros [H|H]; [by apply not_elem_of_empty in H|done]|auto].
Qed.

Lemma usedByOf_Permutation items :
  usedByOf items ≡ₚ elements (tcpSets items).
Proof. apply merge_sort_Permutation. Qed.

Lemma elem_of_usedByOf x items :
  x ∈ usedByOf items ↔ x ∈ identity <$> items.
Proof.
  rewrite usedByOf_Permutation, elem_of_elements. apply elem_of_tcpSets.
Qed.

Lemma NoDup_usedByOf items : NoDup (usedByOf items).
Proof. rewrite usedByOf_Permutation. apply NoDup_elements. Qed.

Lemma sorted_usedByOf items : StronglySorted String.le (usedByOf items).
Proof. apply (StronglySorted_merge_sort String.le). Qed.

Lemma ascending_of_sorted l :
  StronglySorted String.le l → NoDup l → ascending l.
Proof.
  unfold ascending. induction 1 as [|x l Hl IH Hx]; intros Hnd.
  - constructor.
  - apply NoDup_cons in Hnd as [Hnotin Hnd].
    constructor; [by apply IH|].
    rewrite Forall_forall in Hx |- *. intros y Hy.
    split; [by apply Hx|].
    intros Hyx. assert (x = y) by (apply (anti_symm String.le); auto).
    by subst.
Qed.

Lemma ascending_sorted l : ascending l → StronglySorted String.le l.
Proof.
  unfold ascending. induction 1 as [|x l Hl IH Hx]; constructor; [done|].
  eapply Forall_impl; [exact Hx|]. by intros y [? _].
Qed.

Lemma ascending_NoDup l : ascending l → NoDup l.
Proof.
  unfold ascending. induction 1 as [|x l Hl IH Hx]; constructor; [|done].
  intros Hin. rewrite Forall_forall in Hx.
  destruct (Hx x Hin) as [Hle Hnle]. by apply Hnle.
Qed.

Lemma ascending_unique l1 l2 :
  ascending l1 → ascending l2 → (∀ x, x ∈ l1 ↔ x ∈ l2) → l1 = l2.
Proof.
  intros H1 H2 Hel.
  apply (StronglySorted_unique String.le); auto using ascending_sorted.
  apply NoDup_Permutation; auto using ascending_NoDup.
Qed.

Lemma ascending_usedByOf items : ascending (usedByOf items).
Proof.
  apply ascending_of_sorted; auto using sorted_usedByOf, NoDup_usedByOf.
Qed.

Lemma usedByOf_ascending items :
  ascending (identity <$> items) → usedByOf items = identity <$> items.
Proof.
  intros Hasc. apply ascending_unique; [apply ascending_usedByOf|done|].
  intros x. apply elem_of_usedByOf.
Qed.

Lemma usedByOf_NoDup items :
  NoDup (identity <$> items) → identity <$> items ≡ₚ usedByOf items.
Proof.
  intros Hnd. apply NoDup_Permutation; auto using NoDup_usedByOf.
  intros x. by rewrite elem_of_usedByOf.
Qed.

(** The index depends on the set of identities only, not on the order or
    the multiplicity of the listed items. *)
Lemma usedByOf_ext items1 items2 :
  (∀ x, x ∈ identity <$> items1 ↔ x ∈ identity <$> items2) →
  usedByOf items1 = usedByOf items2.
Proof.
  intros Hel. apply ascending_unique; auto using ascending_usedByOf.
  intros x. by rewrite !elem_of_usedByOf.
Qed.

End index.

Lemma Reconcile_Cycle r request c :
  Cycle c (reconcile.NamespacedName request) (Reconcile r request c).
Proof.
  unfold Reconcile, bind, client.Get, GetContent, client.List,
    client.StatusUpdate, ret.
  destruct (client.getOutcome c _) as [err|ds] eqn:Hget.
  { destruct (IsNotFound err) eqn:Hnf; cbn; econstructor; eauto. }
  destruct (resolve c (caCertificate _)) as [err|b1] eqn:Hca.
  { cbn. by eapply cycle_ca_invalid. }
  destruct (resolve c (Certificate _)) as [err|b2] eqn:Hcrt.
  { cbn. eapply cycle_cert_invalid; [done|by exists b1|done]. }
  destruct (resolve c (PrivateKey _)) as [err|b3] eqn:Hkey.
  { cbn. eapply cycle_key_invalid; [done|by exists b1|by exists b2|done]. }
  destruct (client.listOutcome c) as [err|items] eqn:Hlist.
  { cbn. eapply cycle_list_failed;
      [done|by exists b1|by exists b2|by exists b3|done]. }
  destruct (client.statusUpdateOutcome c _) as [[err|] c'] eqn:Hupd.
  - pose proof (statusUpdate_failed _ _ _ _ Hupd) as ->. cbn.
    eapply cycle_write_failed;
      [done|by exists b1|by exists b2|by exists b3|done|done].
  - rewrite trigger_run. cbn. rewrite app_nil_r.
    eapply (cycle_done c _ ds items c');
      [done|by exists b1|by exists b2|by exists b3|done|done].
Qed.

(** What a successful status write leaves in the cluster. *)
Lemma statusUpdate_done c ds c' :
  client.statusUpdateOutcome c ds = (None, c') →
  updateFault c = None ∧
  ∃ s, datastores c !! client.objectKey ds = Some s ∧
       c' = setDatastores c
              (<[client.objectKey ds := mkStored (storedSpec s) (Status ds)]>
                 (datastores c)).
Proof.
  unfold client.statusUpdateOutcome. intros H.
  repeat case_match; simplify_eq. eauto.
Qed.

Lemma usedByAt_written c ds c' :
  client.statusUpdateOutcome c ds = (None, c') →
  usedByAt c' (client.objectKey ds) = Some (UsedBy (Status ds)).
Proof.
  intros (_ & s & _ & ->)%statusUpdate_done.
  unfold usedByAt. cbn. by rewrite lookup_insert_eq.
Qed.

Lemma sent_app t1 t2 : sent (t1 ++ t2) = sent t1 ++ sent t2.
Proof. apply omap_app. Qed.

Lemma resolved_app t1 t2 : resolved (t1 ++ t2) = resolved t1 ++ resolved t2.
Proof. apply omap_app. Qed.

Lemma sent_cons_other call c t :
  (∀ ev, call ≠ CallSend ev) → sent ((call, c) :: t) = sent t.
Proof. intros H. destruct call; try done. by destruct (H ev). Qed.

Lemma sent_getContentCalls c ds ms : sent (getContentCalls c ds ms) = [].
Proof. by induction ms. Qed.

Lemma resolved_getContentCalls c ds ms :
  resolved (getContentCalls c ds ms) = materialRef ds <$> ms.
Proof. induction ms as [|m ms IH]; [done|]. cbn. by f_equal. Qed.

(** ** Properties of [Reconcile] *)

Ltac cycle_cases r request c :=
  destruct (Reconcile_Cycle r request c);
  unfold resolves in *; cbn [result final trace fst snd] in *;
  repeat match goal with H : ∃ _, _ |- _ => destruct H as [? H] end;
  try congruence;
  repeat match goal with
         | H1 : ?x = _, H2 : ?x = _ |- _ => rewrite H1 in H2
         end;
  simplify_eq.

(** C6. When the get of the descriptor answers not-found, [Reconcile]
    returns success with the empty result (no requeue), leaves the cluster
    as it found it, and the get is the only call it makes: no material is
    resolved, nothing is listed, no status is written, no event is sent. *)
Theorem reconcile_not_found r request c err :
  client.getOutcome c (reconcile.NamespacedName request) = inl err →
  IsNotFound err = true →
  result (Reconcile r request c)
    = ({| reconcile.Requeue := false; reconcile.RequeueAfter := 0 |}, None)
  ∧ final (Reconcile r request c) = c
  ∧ (trace (Reconcile r request c)).*1
    = [CallGet (reconcile.NamespacedName request)]
  ∧ sent (trace (Reconcile r request c)) = [].
Proof.
  intros Hget Hnf. cycle_cases r request c. done.
Qed.

Lemma reconcile_not_found_witness :
  result (Reconcile demo.r (reconcile.mkRequest (types.mkNamespacedName "" "gone"))
            demo.healthy)
    = ({| reconcile.Requeue := false; reconcile.RequeueAfter := 0 |}, None)
  ∧ final (Reconcile demo.r (reconcile.mkRequest (types.mkNamespacedName "" "gone"))
            demo.healthy) = demo.healthy
  ∧ (trace (Reconcile demo.r (reconcile.mkRequest (types.mkNamespacedName "" "gone"))
            demo.healthy)).*1
    = [CallGet (types.mkNamespacedName "" "gone")]
  ∧ sent (trace (Reconcile demo.r
            (reconcile.mkRequest (types.mkNamespacedName "" "gone"))
            demo.healthy)) = [].
Proof.
  apply (reconcile_not_found demo.r
           (reconcile.mkRequest (types.mkNamespacedName "" "gone"))
           demo.healthy (StatusError StatusReasonNotFound "not found")).
  - vm_compute. reflexivity.
  - reflexivity.
Defined.

(** C5. The materials are resolved in the order CA certificate, client
    certificate, client private key, and resolution stops at the first one
    that fails: the references handed to the Content Resolver during a
    cycle are exactly those up to and including the first failure. *)
Theorem validator_order_fail_fast r request c ds :
  client.getOutcome c (reconcile.NamespacedName request) = inr ds →
  resolved (trace (Reconcile r request c)) =
    match resolve c (materialRef ds CACertificate) with
    | inl _ => [materialRef ds CACertificate]
    | inr _ =>
        match resolve c (materialRef ds ClientCert) with
        | inl _ => [materialRef ds CACertificate; materialRef ds ClientCert]
        | inr _ =>
            [materialRef ds CACertificate; materialRef ds ClientCert;
             materialRef ds ClientKey]
        end
    end.
Proof.
  intros Hget. cycle_cases r request c;
    repeat match goal with H : resolve _ _ = _ |- _ => rewrite H end;
    rewrite ?app_comm_cons, ?app_assoc, ?resolved_app, ?resolved_sends;
    cbn; by rewrite ?app_nil_r.
Qed.

Lemma validator_order_fail_fast_witness :
  resolved (trace (Reconcile demo.r demo.request
                     (demo.cluster ["tls.crt"] None None)))
  = [demo.ref "ca.crt"; demo.ref "tls.crt"].
Proof.
  apply (validator_order_fail_fast demo.r demo.request
           (demo.cluster ["tls.crt"] None None) demo.descriptor).
  vm_compute. reflexivity.
Defined.

Lemma onlyFails_resolves c ds m e m' :
  onlyFails c ds m e → m' ≠ m → resolves c ds m'.
Proof. intros [_ H] Hne. by apply H. Qed.

(** C3, as the code has it. When exactly one material fails to resolve,
    [Reconcile] returns the resolver's error wrapped with a message naming
    the TLS section of the failing material: "invalid Certificate Authority
    data" for the CA certificate, "invalid Client Certificate data" for the
    client certificate and for the client private key alike. *)
Theorem validation_failure_tag r request c ds m e :
  client.getOutcome c (reconcile.NamespacedName request) = inr ds →
  onlyFails c ds m e →
  result (Reconcile r request c)
  = (reconcile.Result0,
     Some (withMessage e
             match m with
             | CACertificate => "invalid Certificate Authority data"
             | ClientCert | ClientKey => "invalid Client Certificate data"
             end)).
Proof.
  intros Hget Hm.
  assert (∀ m', m' ≠ m → resolves c ds m') as Hothers
    by eauto using onlyFails_resolves.
  destruct Hm as [Hm _].
  destruct m;
    [ clear Hothers
    | pose proof (Hothers CACertificate ltac:(done)) as [? ?]
    | pose proof (Hothers CACertificate ltac:(done)) as [? ?];
      pose proof (Hothers ClientCert ltac:(done)) as [? ?] ];
    cycle_cases r request c; done.
Qed.

Lemma validation_failure_tag_witness :
  result (Reconcile demo.r demo.request (demo.cluster ["tls.key"] None None))
  = (reconcile.Result0,
     Some (withMessage demo.missing "invalid Client Certificate data")).
Proof.
  apply (validation_failure_tag demo.r demo.request
           (demo.cluster ["tls.key"] None None) demo.descriptor ClientKey).
  - vm_compute. reflexivity.
  - split; [reflexivity|].
    intros [] Hne; [by eexists|by eexists|done].
Defined.

(** C3, as the claim states it, fails: a descriptor whose client
    certificate alone does not resolve and one whose client private key
    alone does not resolve make [Reconcile] return the very same error, so
    the error does not tell which of the two materials failed. *)
Lemma validation_tag_counterexample :
  onlyFails (demo.cluster ["tls.crt"] None None) demo.descriptor
            ClientCert demo.missing
  ∧ onlyFails (demo.cluster ["tls.key"] None None) demo.descriptor
              ClientKey demo.missing
  ∧ result (Reconcile demo.r demo.request (demo.cluster ["tls.crt"] None None))
    = (reconcile.Result0,
       Some (withMessage demo.missing "invalid Client Certificate data"))
  ∧ result (Reconcile demo.r demo.request (demo.cluster ["tls.key"] None None))
    = (reconcile.Result0,
       Some (withMessage demo.missing "invalid Client Certificate data"))
  ∧ ¬ ∃ tagOf : error → Material,
        ∀ c ds m e,
          client.getOutcome c demo.key = inr ds →
          onlyFails c ds m e →
          ∃ err, (result (Reconcile demo.r demo.request c)).2 = Some err
                 ∧ tagOf err = m.
Proof.
  assert (onlyFails (demo.cluster ["tls.crt"] None None) demo.descriptor
            ClientCert demo.missing) as Hcrt.
  { split; [reflexivity|]. intros [] Hne; [by eexists|done|by eexists]. }
  assert (onlyFails (demo.cluster ["tls.key"] None None) demo.descriptor
            ClientKey demo.missing) as Hkey.
  { split; [reflexivity|]. intros [] Hne; [by eexists|by eexists|done]. }
  split_and!; [done|done|by vm_compute|by vm_compute|].
  intros [tagOf Htag].
  assert (∀ broken, client.getOutcome (demo.cluster broken None None) demo.key
                    = inr demo.descriptor) as Hget by (intros; by vm_compute).
  destruct (Htag _ _ _ _ (Hget _) Hcrt) as (e1 & He1 & Ht1).
  destruct (Htag _ _ _ _ (Hget _) Hkey) as (e2 & He2 & Ht2).
  vm_compute in He1, He2. congruence.
Qed.

(** C4. A cycle that returns an error, whatever the stage that failed, has
    sent no event and leaves the cluster exactly as it found it; the stored
    [status.usedBy] is therefore the prior one. *)
Theorem failed_cycle_clean r request c :
  (result (Reconcile r request c)).2 ≠ None →
  sent (trace (Reconcile r request c)) = []
  ∧ final (Reconcile r request c) = c
  ∧ ∀ key, usedByAt (final (Reconcile r request c)) key = usedByAt c key.
Proof.
  intros Herr. cycle_cases r request c; done.
Qed.

Lemma failed_cycle_clean_witness :
  (result (Reconcile demo.r demo.request
             (demo.cluster [] None (Some demo.conflict)))).2 ≠ None
  ∧ sent (trace (Reconcile demo.r demo.request
                   (demo.cluster [] None (Some demo.conflict)))) = []
  ∧ final (Reconcile demo.r demo.request
             (demo.cluster [] None (Some demo.conflict)))
    = demo.cluster [] None (Some demo.conflict)
  ∧ ∀ key, usedByAt (final (Reconcile demo.r demo.request
                              (demo.cluster [] None (Some demo.conflict)))) key
           = usedByAt (demo.cluster [] None (Some demo.conflict)) key.
Proof.
  assert ((result (Reconcile demo.r demo.request
             (demo.cluster [] None (Some demo.conflict)))).2 ≠ None) as H
    by (vm_compute; discriminate).
  split; [exact H|].
  exact (failed_cycle_clean demo.r demo.request
           (demo.cluster [] None (Some demo.conflict)) H).
Defined.

Lemma listOutcome_items c items :
  client.listOutcome c = inr items → items = tenantControlPlanes c.
Proof. unfold client.listOutcome. intros H. case_match; by simplify_eq. Qed.

Lemma sent_done_trace key c ds ms upd items c' :
  sent ((CallGet key, c) :: getContentCalls c ds ms
          ++ [(CallList, c); (CallStatusUpdate upd, c)] ++ sends items c')
  = mkGenericEvent <$> items.
Proof.
  rewrite sent_cons_other by done.
  by rewrite !sent_app, sent_getContentCalls, sent_sends.
Qed.

(** C10. In a cycle that found the descriptor and returned no error, the
    events sent are, one for one and in the same order, the items of the
    list the list call returned: nothing is deduplicated or reordered. *)
Theorem events_follow_raw_list r request c ds :
  client.getOutcome c (reconcile.NamespacedName request) = inr ds →
  (result (Reconcile r request c)).2 = None →
  sent (trace (Reconcile r request c))
  = mkGenericEvent <$> tenantControlPlanes c.
Proof.
  intros Hget Hok. cycle_cases r request c.
  rewrite sent_done_trace. f_equal. by apply listOutcome_items.
Qed.

Lemma events_follow_raw_list_witness :
  sent (trace (Reconcile demo.r demo.request demo.healthy))
  = [ mkGenericEvent (mkTenantControlPlane "ns2" "b" "7");
      mkGenericEvent (mkTenantControlPlane "ns1" "a" "3");
      mkGenericEvent (mkTenantControlPlane "ns2" "b" "7") ].
Proof.
  apply (events_follow_raw_list demo.r demo.request demo.healthy
           demo.descriptor).
  - vm_compute. reflexivity.
  - vm_compute. reflexivity.
Defined.

(** The index written by a cycle that found the descriptor and returned no
    error. *)
Lemma written_index r request c ds :
  client.getOutcome c (reconcile.NamespacedName request) = inr ds →
  (result (Reconcile r request c)).2 = None →
  usedByAt (final (Reconcile r request c)) (reconcile.NamespacedName request)
  = Some (usedByOf (tenantControlPlanes c)).
Proof.
  intros Hget Hok. cycle_cases r request c.
  match goal with H : client.statusUpdateOutcome _ _ = _ |- _ =>
    apply usedByAt_written in H; cbn in H end.
  match goal with H : client.listOutcome _ = _ |- _ =>
    apply listOutcome_items in H; subst end.
  match goal with H : usedByAt _ _ = _ |- _ => rewrite <- H end.
  f_equal. symmetry. change (client.objectKey ?d)
    with (types.mkNamespacedName (dsNamespace d) (dsName d)).
  cbn. by apply getOutcome_key in Hget.
Qed.

(** C2, as the claim states it, fails. With the items ns2/b, ns1/a, ns2/b
    listed in that order, the cycle succeeds and writes the index
    [ns1/a; ns2/b], but sends three events, for ns2/b, ns1/a and ns2/b:
    neither one event per identity of the index nor in its order. *)
Lemma events_per_index_counterexample :
  result (Reconcile demo.r demo.request demo.healthy)
    = (reconcile.Result0, None)
  ∧ usedByAt (final (Reconcile demo.r demo.request demo.healthy)) demo.key
    = Some ["ns1/a"; "ns2/b"]
  ∧ notified <$> sent (trace (Reconcile demo.r demo.request demo.healthy))
    = ["ns2/b"; "ns1/a"; "ns2/b"]
  ∧ notified <$> sent (trace (Reconcile demo.r demo.request demo.healthy))
    ≠ usedByOf (tenantControlPlanes demo.healthy).
Proof.
  split_and!; [by vm_compute..|].
  vm_compute. discriminate.
Qed.

(** C2, as the code has it. In a cycle that found the descriptor and
    returned no error, one event is sent per listed item, in list order.
    The identities notified are, as a set, those of the index written; when
    the listed identities are pairwise distinct, each identity of the index
    is notified exactly once; when they are listed in strictly ascending
    order, the order of emission is that of the index. *)
Theorem events_cover_index r request c ds :
  client.getOutcome c (reconcile.NamespacedName request) = inr ds →
  (result (Reconcile r request c)).2 = None →
  usedByAt (final (Reconcile r request c)) (reconcile.NamespacedName request)
    = Some (usedByOf (tenantControlPlanes c))
  ∧ notified <$> sent (trace (Reconcile r request c))
    = identity <$> tenantControlPlanes c
  ∧ (∀ x, x ∈ notified <$> sent (trace (Reconcile r request c))
          ↔ x ∈ usedByOf (tenantControlPlanes c))
  ∧ (NoDup (identity <$> tenantControlPlanes c) →
     notified <$> sent (trace (Reconcile r request c))
     ≡ₚ usedByOf (tenantControlPlanes c))
  ∧ (ascending (identity <$> tenantControlPlanes c) →
     notified <$> sent (trace (Reconcile r request c))
     = usedByOf (tenantControlPlanes c)).
Proof.
  intros Hget Hok.
  assert (notified <$> sent (trace (Reconcile r request c))
          = identity <$> tenantControlPlanes c) as Hids.
  { cycle_cases r request c. rewrite sent_done_trace.
    match goal with H : client.listOutcome _ = _ |- _ =>
      apply listOutcome_items in H; subst end.
    rewrite <- list_fmap_compose. by apply list_fmap_ext. }
  split; [by eapply written_index|]. rewrite Hids.
  split_and!; [done| |apply usedByOf_NoDup|].
  - intros x. by rewrite elem_of_usedByOf.
  - intros Hasc. symmetry. by apply usedByOf_ascending.
Qed.

Lemma events_cover_index_witness :
  usedByAt (final (Reconcile demo.r demo.request demo.tidy)) demo.key
    = Some ["ns1/a"; "ns2/b"]
  ∧ notified <$> sent (trace (Reconcile demo.r demo.request demo.tidy))
    = ["ns1/a"; "ns2/b"]
  ∧ notified <$> sent (trace (Reconcile demo.r demo.request demo.tidy))
    = usedByOf (tenantControlPlanes demo.tidy).
Proof.
  destruct (events_cover_index demo.r demo.request demo.tidy demo.descriptor)
    as (Hidx & Hids & _ & _ & Hasc).
  - vm_compute. reflexivity.
  - vm_compute. reflexivity.
  - split; [exact Hidx|]. split; [exact Hids|].
    apply Hasc. vm_compute.
    repeat (constructor; try (split; [exact I|exact id])).
Defined.

Lemma statusUpdate_succeeds c key ds upd :
  client.getOutcome c key = inr ds →
  updateFault c = None →
  client.objectKey upd = key →
  ∃ c', client.statusUpdateOutcome c upd = (None, c').
Proof.
  intros [_ Hst]%getOutcome_stored Hf <-.
  unfold client.statusUpdateOutcome. rewrite Hf, Hst. eauto.
Qed.

Lemma objectKey_setUsedBy ds idx :
  client.objectKey (setUsedBy ds idx) = client.objectKey ds.
Proof. done. Qed.

(** C1. When the descriptor is found, its three materials resolve, and the
    list and the status write do not fail, [Reconcile] returns success and
    the [status.usedBy] stored afterwards is strictly ascending in the
    lexicographic order (hence free of duplicates) and holds exactly the
    "namespace/name" identities of the listed dependents. *)
Theorem reconcile_writes_index r request c ds :
  client.getOutcome c (reconcile.NamespacedName request) = inr ds →
  resolves c ds CACertificate →
  resolves c ds ClientCert →
  resolves c ds ClientKey →
  listFault c = None →
  updateFault c = None →
  result (Reconcile r request c) = (reconcile.Result0, None)
  ∧ ∃ index,
      usedByAt (final (Reconcile r request c)) (reconcile.NamespacedName request)
        = Some index
      ∧ ascending index
      ∧ ∀ x, x ∈ index ↔
             ∃ tcp, tcp ∈ tenantControlPlanes c
                    ∧ x = GetNamespace tcp +:+ "/" +:+ GetName tcp.
Proof.
  intros Hget Hca Hcrt Hkey Hlf Huf.
  assert (result (Reconcile r request c) = (reconcile.Result0, None)) as Hres.
  { pose proof (getOutcome_key _ _ _ Hget) as Hk.
    destruct
      (statusUpdate_succeeds c _ ds
         (setUsedBy ds (usedByOf (tenantControlPlanes c))) Hget Huf Hk)
      as [c' Hupd].
    cycle_cases r request c.
    - unfold client.listOutcome in *. by rewrite Hlf in *.
    - match goal with H : client.listOutcome _ = _ |- _ =>
        apply listOutcome_items in H; subst end.
      congruence. }
  split; [done|].
  exists (usedByOf (tenantControlPlanes c)).
  split; [|split].
  - eapply written_index; [done|]. by rewrite Hres.
  - apply ascending_usedByOf.
  - intros x. rewrite elem_of_usedByOf, list_elem_of_fmap.
    split; intros (tcp & ? & ?); by exists tcp.
Qed.

Lemma reconcile_writes_index_witness :
  result (Reconcile demo.r demo.request demo.healthy)
    = (reconcile.Result0, None)
  ∧ ∃ index,
      usedByAt (final (Reconcile demo.r demo.request demo.healthy)) demo.key
        = Some index
      ∧ ascending index
      ∧ ∀ x, x ∈ index ↔
             ∃ tcp, tcp ∈ demo.tcps
                    ∧ x = GetNamespace tcp +:+ "/" +:+ GetName tcp.
Proof.
  apply (reconcile_writes_index demo.r demo.request demo.healthy
           demo.descriptor).
  - vm_compute. reflexivity.
  - eexists. reflexivity.
  - eexists. reflexivity.
  - eexists. reflexivity.
  - reflexivity.
  - reflexivity.
Defined.

Lemma elem_of_sent ev snap t : (CallSend ev, snap) ∈ t → ev ∈ sent t.
Proof.
  intros H. unfold sent. apply list_elem_of_omap.
  by exists (CallSend ev, snap).
Qed.

Lemma elem_of_sends ev snap items c :
  (CallSend ev, snap) ∈ sends items c → snap = c.
Proof.
  unfold sends. rewrite list_elem_of_fmap. intros (i & Heq & _). congruence.
Qed.

(** C9. Every event of a cycle is sent after the status write of that
    cycle, and that write succeeded: the trace splits at a status update
    issued against the initial cluster, with no send before it, whose
    outcome is success and the very cluster the send is issued against; in
    that cluster [status.usedBy] is the index computed from the list. *)
Theorem send_after_status_write r request c ev snap :
  (CallSend ev, snap) ∈ trace (Reconcile r request c) →
  usedByAt snap (reconcile.NamespacedName request)
    = Some (usedByOf (tenantControlPlanes c))
  ∧ ∃ ds pre post,
      trace (Reconcile r request c) = pre ++ (CallStatusUpdate ds, c) :: post
      ∧ sent pre = []
      ∧ (CallSend ev, snap) ∈ post
      ∧ UsedBy (Status ds) = usedByOf (tenantControlPlanes c)
      ∧ client.statusUpdateOutcome c ds = (None, snap).
Proof.
  intros Hin.
  pose proof (written_index r request c) as Hidx.
  cycle_cases r request c;
    try (apply elem_of_sent in Hin; cbn in Hin; by apply elem_of_nil in Hin).
  match goal with H : client.listOutcome _ = _ |- _ =>
    apply listOutcome_items in H; subst end.
  assert (snap = c') as ->.
  { rewrite app_comm_cons, app_assoc in Hin.
    apply elem_of_app in Hin as [Hin|Hin]; [|by eapply elem_of_sends].
    apply elem_of_sent in Hin. cbn in Hin. by apply elem_of_nil in Hin. }
  split; [by eapply Hidx|].
  exists (setUsedBy ds (usedByOf (tenantControlPlanes c))),
    ((CallGet (reconcile.NamespacedName request), c)
       :: getContentCalls c ds [CACertificate; ClientCert; ClientKey]
       ++ [(CallList, c)]),
    (sends (tenantControlPlanes c) c').
  split; [done|].
  split_and!; [done| |done|done].
  - rewrite app_comm_cons, app_assoc in Hin.
    apply elem_of_app in Hin as [Hin|Hin]; [|done].
    apply elem_of_sent in Hin. cbn in Hin. by apply elem_of_nil in Hin.
Qed.

Lemma send_after_status_write_witness :
  usedByAt (final (Reconcile demo.r demo.request demo.healthy)) demo.key
    = Some ["ns1/a"; "ns2/b"]
  ∧ ∃ ds pre post,
      trace (Reconcile demo.r demo.request demo.healthy)
        = pre ++ (CallStatusUpdate ds, demo.healthy) :: post
      ∧ sent pre = []
      ∧ (CallSend (mkGenericEvent (mkTenantControlPlane "ns1" "a" "3")),
         final (Reconcile demo.r demo.request demo.healthy)) ∈ post
      ∧ UsedBy (Status ds) = usedByOf (tenantControlPlanes demo.healthy)
      ∧ client.statusUpdateOutcome demo.healthy ds
        = (None, final (Reconcile demo.r demo.request demo.healthy)).
Proof.
  apply (send_after_status_write demo.r demo.request demo.healthy
           (mkGenericEvent (mkTenantControlPlane "ns1" "a" "3"))
           (final (Reconcile demo.r demo.request demo.healthy))).
  vm_compute. do 7 apply list_elem_of_further. apply list_elem_of_here.
Defined.

(** The path of a cycle in which every stage succeeds. *)
Lemma Reconcile_done r request c ds items c' :
  client.getOutcome c (reconcile.NamespacedName request) = inr ds →
  resolves c ds CACertificate →
  resolves c ds ClientCert →
  resolves c ds ClientKey →
  client.listOutcome c = inr items →
  client.statusUpdateOutcome c (setUsedBy ds (usedByOf items)) = (None, c') →
  Reconcile r request c
  = ((reconcile.Result0, None), c',
     (CallGet (reconcile.NamespacedName request), c)
       :: getContentCalls c ds [CACertificate; ClientCert; ClientKey]
       ++ [(CallList, c); (CallStatusUpdate (setUsedBy ds (usedByOf items)), c)]
       ++ sends items c').
Proof.
  intros Hget Hca Hcrt Hkey Hlist Hupd. by cycle_cases r request c.
Qed.

(** The cluster a successful status write leaves answers the next cycle as
    the one before did, but for the status it returns. *)
Lemma after_status_write c key ds idx c' :
  client.getOutcome c key = inr ds →
  client.statusUpdateOutcome c (setUsedBy ds idx) = (None, c') →
  client.getOutcome c' key = inr (setUsedBy ds idx)
  ∧ resolve c' = resolve c
  ∧ client.listOutcome c' = client.listOutcome c
  ∧ client.statusUpdateOutcome c' (setUsedBy ds idx) = (None, c').
Proof.
  intros Hget Hupd.
  pose proof (getOutcome_key _ _ _ Hget) as Hk.
  apply getOutcome_stored in Hget as [Hgf Hst].
  apply statusUpdate_done in Hupd as (Huf & s & Hs & ->).
  subst key. rewrite objectKey_setUsedBy in *. simplify_eq.
  unfold client.getOutcome, client.listOutcome, client.statusUpdateOutcome.
  cbn. rewrite Hgf, Huf, objectKey_setUsedBy, lookup_insert_eq. cbn.
  split_and!; try done.
  by rewrite insert_insert_eq.
Qed.

Lemma resolves_after_status_write c c' ds idx m :
  resolve c' = resolve c → resolves c ds m → resolves c' (setUsedBy ds idx) m.
Proof. unfold resolves. intros ->. by destruct m. Qed.

(** When the second of two cycles in a row is answered the list in the
    same order as the first, it stores the same [status.usedBy], sends the
    same events in the same order, returns the same result and leaves the
    same cluster as the first. *)
Lemma reconcile_twice_same_order r request c :
  let run1 := Reconcile r request c in
  let run2 := Reconcile r request (final run1) in
  usedByAt (final run2) (reconcile.NamespacedName request)
    = usedByAt (final run1) (reconcile.NamespacedName request)
  ∧ sent (trace run2) = sent (trace run1)
  ∧ result run2 = result run1
  ∧ final run2 = final run1.
Proof.
  intros run1 run2. subst run2 run1.
  pose proof (Reconcile_Cycle r request c) as Hcycle.
  inversion Hcycle as
    [ err Hget Hnf Hrun | err Hget Hnf Hrun | ds err Hget Hca Hrun
    | ds err Hget Hca Hcrt Hrun | ds err Hget Hca Hcrt Hkey Hrun
    | ds err Hget Hca Hcrt Hkey Hlist Hrun
    | ds items err Hget Hca Hcrt Hkey Hlist Hupd Hrun
    | ds items c' Hget Hca Hcrt Hkey Hlist Hupd Hrun ];
    cbn [final result trace fst snd];
    try (by rewrite <- Hrun).
  destruct (after_status_write _ _ _ _ _ Hget Hupd)
    as (Hget' & Hres' & Hlist' & Hupd').
  rewrite Hlist in Hlist'.
  rewrite (Reconcile_done r request c' (setUsedBy ds (usedByOf items)) items c')
    by eauto using resolves_after_status_write.
  cbn [final result trace fst snd].
  split_and!; [done| |done|done].
  rewrite sent_done_trace. symmetry.
  apply (sent_done_trace _ c ds [CACertificate; ClientCert; ClientKey]).
Qed.

(** C8. The watch predicate accepts a change notification exactly when the
    name of its object is the configured resource name, and the controller
    runs [Reconcile] for a notification exactly in that case; for any other
    name the notification is dropped without a single call. *)
Theorem watch_filter_by_name r e c :
  (predicate.accepts (controllerruntime.SetupWithManager r) e = true
   ↔ dsName (predicate.subject e) = ResourceName r)
  ∧ (is_Some (result (controllerruntime.dispatch r e c))
     ↔ dsName (predicate.subject e) = ResourceName r)
  ∧ (controllerruntime.dispatch r e c = (None, c, [])
     ↔ dsName (predicate.subject e) ≠ ResourceName r).
Proof.
  assert (predicate.accepts (controllerruntime.SetupWithManager r) e = true
          ↔ dsName (predicate.subject e) = ResourceName r) as Hadm.
  { unfold controllerruntime.SetupWithManager, watchFilter.
    destruct e; cbn; apply String.eqb_eq. }
  split; [done|].
  unfold controllerruntime.dispatch.
  destruct (predicate.accepts _ e) eqn:Ha.
  - assert (dsName (predicate.subject e) = ResourceName r) as Hname
      by by apply Hadm.
    unfold bind, ret.
    destruct (Reconcile_Cycle r
      (reconcile.mkRequest (client.objectKey (predicate.subject e))) c);
      cbn; (split; [by split; eauto|split; [discriminate|done]]).
  - assert (dsName (predicate.subject e) ≠ ResourceName r) as Hname.
    { intros Hn. apply Hadm in Hn. congruence. }
    unfold ret. cbn. split; [|done].
    split; [by intros [? ?]|done].
Qed.

(** ** Further facts *)

(** Whatever the outcome of a cycle, the [status.usedBy] stored under any
    key afterwards is the one stored before or the whole index computed
    from the list: the only write of a cycle carries the complete index. *)
Lemma usedBy_prior_or_index r request c key :
  usedByAt (final (Reconcile r request c)) key = usedByAt c key
  ∨ usedByAt (final (Reconcile r request c)) key
    = Some (usedByOf (tenantControlPlanes c)).
Proof.
  cycle_cases r request c; auto.
  match goal with H : client.listOutcome _ = _ |- _ =>
    apply listOutcome_items in H; subst end.
  match goal with H : client.statusUpdateOutcome _ _ = _ |- _ =>
    pose proof (usedByAt_written _ _ _ H) as Hw;
    apply statusUpdate_done in H as (_ & s & _ & ->) end.
  destruct (decide (key = client.objectKey ds)) as [->|Hne].
  - right. by rewrite objectKey_setUsedBy in Hw.
  - left. unfold usedByAt. cbn.
    by rewrite objectKey_setUsedBy, lookup_insert_ne.
Qed.

(** The index is the same for any order and multiplicity in which the
    dependents are listed. *)
Lemma usedByOf_Permutation_invariant items1 items2 :
  items1 ≡ₚ items2 → usedByOf items1 = usedByOf items2.
Proof.
  intros Hp. apply usedByOf_ext. intros x. by rewrite Hp.
Qed.

Example index_of_duplicated_list :
  usedByOf demo.tcps = ["ns1/a"; "ns2/b"].
Proof. by vm_compute. Qed.

Example message_of_key_failure :
  Error (withMessage demo.missing "invalid Client Certificate data")
  = "invalid Client Certificate data: secret not found".
Proof. reflexivity. Qed.

Example list_failure_is_returned :
  Reconcile demo.r demo.request
    (demo.cluster [] (Some (errorString "list timed out")) None)
  = ((reconcile.Result0, Some (errorString "list timed out")),
     demo.cluster [] (Some (errorString "list timed out")) None,
     (CallGet demo.key, demo.cluster [] (Some (errorString "list timed out")) None)
       :: getContentCalls
            (demo.cluster [] (Some (errorString "list timed out")) None)
            demo.descriptor [CACertificate; ClientCert; ClientKey]
       ++ [(CallList, demo.cluster [] (Some (errorString "list timed out")) None)]).
Proof. by vm_compute. Qed.

Example other_name_is_dropped :
  controllerruntime.dispatch demo.r
    (predicate.UpdateEvent demo.descriptor
       (kamajiv1alpha1.mkDataStore "" "store-b" demo.spec (mkDataStoreStatus [])))
    demo.healthy
  = (None, demo.healthy, []).
Proof. reflexivity. Qed.

(** ** Further properties of the controller *)

Lemma listOutcome_fault c e : listFault c = Some e → client.listOutcome c = inl e.
Proof. unfold client.listOutcome. by intros ->. Qed.

Lemma listOutcome_ok c items : client.listOutcome c = inr items → listFault c = None.
Proof. unfold client.listOutcome. by destruct (listFault c). Qed.

Lemma statusUpdate_fault c ds e :
  updateFault c = Some e → client.statusUpdateOutcome c ds = (Some e, c).
Proof. unfold client.statusUpdateOutcome. by intros ->. Qed.

(** X1. When the get of the descriptor fails with an error other than
    not-found, [Reconcile] returns that very error, not wrapped, makes no
    other call and leaves the cluster as it is. *)
Theorem get_error_passed_through r request c err :
  client.getOutcome c (reconcile.NamespacedName request) = inl err →
  IsNotFound err = false →
  result (Reconcile r request c) = (reconcile.Result0, Some err)
  ∧ final (Reconcile r request c) = c
  ∧ (trace (Reconcile r request c)).*1
    = [CallGet (reconcile.NamespacedName request)].
Proof.
  intros Hget Hnf. by cycle_cases r request c.
Qed.

Lemma get_error_passed_through_witness :
  result (Reconcile demo.r demo.request scenarios.unreachable)
    = (reconcile.Result0, Some scenarios.timeout)
  ∧ final (Reconcile demo.r demo.request scenarios.unreachable)
    = scenarios.unreachable
  ∧ (trace (Reconcile demo.r demo.request scenarios.unreachable)).*1
    = [CallGet demo.key].
Proof.
  apply (get_error_passed_through demo.r demo.request scenarios.unreachable
           scenarios.timeout); reflexivity.
Defined.

(** X2. When the three materials resolve and the list call fails,
    [Reconcile] returns the error of the list call, not wrapped; it has made
    the get, the three resolutions and the list, in that order, and no
    status write. *)
Theorem list_error_passed_through r request c ds err :
  client.getOutcome c (reconcile.NamespacedName request) = inr ds →
  resolves c ds CACertificate →
  resolves c ds ClientCert →
  resolves c ds ClientKey →
  listFault c = Some err →
  result (Reconcile r request c) = (reconcile.Result0, Some err)
  ∧ final (Reconcile r request c) = c
  ∧ (trace (Reconcile r request c)).*1
    = [ CallGet (reconcile.NamespacedName request);
        CallGetContent (materialRef ds CACertificate);
        CallGetContent (materialRef ds ClientCert);
        CallGetContent (materialRef ds ClientKey);
        CallList ].
Proof.
  intros Hget Hca Hcrt Hkey Hlf%listOutcome_fault.
  by cycle_cases r request c.
Qed.

Lemma list_error_passed_through_witness :
  result (Reconcile demo.r demo.request
            (demo.cluster [] (Some scenarios.timeout) None))
    = (reconcile.Result0, Some scenarios.timeout)
  ∧ final (Reconcile demo.r demo.request
             (demo.cluster [] (Some scenarios.timeout) None))
    = demo.cluster [] (Some scenarios.timeout) None
  ∧ (trace (Reconcile demo.r demo.request
              (demo.cluster [] (Some scenarios.timeout) None))).*1
    = [ CallGet demo.key;
        CallGetContent (demo.ref "ca.crt");
        CallGetContent (demo.ref "tls.crt");
        CallGetContent (demo.ref "tls.key");
        CallList ].
Proof.
  apply (list_error_passed_through demo.r demo.request
           (demo.cluster [] (Some scenarios.timeout) None)
           demo.descriptor scenarios.timeout).
  - vm_compute. reflexivity.
  - by eexists.
  - by eexists.
  - by eexists.
  - reflexivity.
Defined.

(** X3. When the three materials resolve, the list succeeds and the status
    write fails, [Reconcile] returns the error of the write, not wrapped.
    The write was attempted once, with the fetched descriptor in which only
    [status.usedBy] was replaced by the whole index; no event is sent. *)
Theorem write_error_passed_through r request c ds err :
  client.getOutcome c (reconcile.NamespacedName request) = inr ds →
  resolves c ds CACertificate →
  resolves c ds ClientCert →
  resolves c ds ClientKey →
  listFault c = None →
  updateFault c = Some err →
  result (Reconcile r request c) = (reconcile.Result0, Some err)
  ∧ final (Reconcile r request c) = c
  ∧ (trace (Reconcile r request c)).*1
    = [ CallGet (reconcile.NamespacedName request);
        CallGetContent (materialRef ds CACertificate);
        CallGetContent (materialRef ds ClientCert);
        CallGetContent (materialRef ds ClientKey);
        CallList;
        CallStatusUpdate
          (kamajiv1alpha1.mkDataStore (dsNamespace ds) (dsName ds) (Spec ds)
             (mkDataStoreStatus (usedByOf (tenantControlPlanes c)))) ].
Proof.
  intros Hget Hca Hcrt Hkey Hlf Huf.
  pose proof (statusUpdate_fault c
    (setUsedBy ds (usedByOf (tenantControlPlanes c))) err Huf) as Hupd.
  assert (client.listOutcome c = inr (tenantControlPlanes c)) as Hlist
    by (unfold client.listOutcome; by rewrite Hlf).
  cycle_cases r request c;
    match goal with H : client.statusUpdateOutcome _ _ = _ |- _ =>
      rewrite Hupd in H end; by simplify_eq.
Qed.

Lemma write_error_passed_through_witness :
  result (Reconcile demo.r demo.request
            (demo.cluster [] None (Some demo.conflict)))
    = (reconcile.Result0, Some demo.conflict)
  ∧ final (Reconcile demo.r demo.request
             (demo.cluster [] None (Some demo.conflict)))
    = demo.cluster [] None (Some demo.conflict)
  ∧ (trace (Reconcile demo.r demo.request
              (demo.cluster [] None (Some demo.conflict)))).*1
    = [ CallGet demo.key;
        CallGetContent (demo.ref "ca.crt");
        CallGetContent (demo.ref "tls.crt");
        CallGetContent (demo.ref "tls.key");
        CallList;
        CallStatusUpdate
          (kamajiv1alpha1.mkDataStore "" "store-a" demo.spec
             (mkDataStoreStatus ["ns1/a"; "ns2/b"])) ].
Proof.
  apply (write_error_passed_through demo.r demo.request
           (demo.cluster [] None (Some demo.conflict))
           demo.descriptor demo.conflict).
  - vm_compute. reflexivity.
  - by eexists.
  - by eexists.
  - by eexists.
  - reflexivity.
  - reflexivity.
Defined.

(** X4. [Reconcile] never asks for a requeue: whatever the cluster and the
    outcome, the result it returns is the empty one. *)
Theorem never_requeues r request c :
  (result (Reconcile r request c)).1
  = {| reconcile.Requeue := false; reconcile.RequeueAfter := 0 |}.
Proof. by cycle_cases r request c. Qed.

(** X5. No failure but the not-found of the get is swallowed: [Reconcile]
    returns a nil error exactly when the get answered not-found, or the
    descriptor was found, its three materials resolved, and neither the
    list nor the status write failed. *)
Theorem nil_error_iff r request c :
  (result (Reconcile r request c)).2 = None
  ↔ (∃ err, client.getOutcome c (reconcile.NamespacedName request) = inl err
            ∧ IsNotFound err = true)
    ∨ (∃ ds, client.getOutcome c (reconcile.NamespacedName request) = inr ds
             ∧ resolves c ds CACertificate
             ∧ resolves c ds ClientCert
             ∧ resolves c ds ClientKey
             ∧ listFault c = None
             ∧ updateFault c = None).
Proof.
  split.
  - intros Hnil.
    destruct (Reconcile_Cycle r request c); cbn in Hnil; try done.
    + left. eauto.
    + right. exists ds. split_and!; try done.
      * by eapply listOutcome_ok.
      * match goal with H : client.statusUpdateOutcome _ _ = _ |- _ =>
          by apply statusUpdate_done in H as [? _] end.
  - intros [(err & Hget & Hnf)|(ds & Hget & Hca & Hcrt & Hkey & Hlf & Huf)].
    + by cycle_cases r request c.
    + pose proof (getOutcome_key _ _ _ Hget) as Hk.
      destruct (statusUpdate_succeeds c _ ds
        (setUsedBy ds (usedByOf (tenantControlPlanes c))) Hget Huf Hk)
        as [c' Hupd].
      assert (client.listOutcome c = inr (tenantControlPlanes c)) as Hlist
        by (unfold client.listOutcome; by rewrite Hlf).
      by cycle_cases r request c.
Qed.

(** X6. A cycle touches nothing but the status of the descriptor it was
    asked to reconcile: the stored descriptors keep their keys and their
    specs, the entries under every other key are untouched, and the listed
    dependents, the resolver and the faults of the cluster are as before. *)
Theorem reconcile_frame r request c :
  dom (datastores (final (Reconcile r request c))) = dom (datastores c)
  ∧ storedSpec <$> datastores (final (Reconcile r request c))
    = storedSpec <$> datastores c
  ∧ delete (reconcile.NamespacedName request)
           (datastores (final (Reconcile r request c)))
    = delete (reconcile.NamespacedName request) (datastores c)
  ∧ tenantControlPlanes (final (Reconcile r request c)) = tenantControlPlanes c
  ∧ resolve (final (Reconcile r request c)) = resolve c
  ∧ getFault (final (Reconcile r request c)) = getFault c
  ∧ listFault (final (Reconcile r request c)) = listFault c
  ∧ updateFault (final (Reconcile r request c)) = updateFault c.
Proof.
  cycle_cases r request c; try done.
  match goal with H : client.getOutcome _ _ = _ |- _ =>
    pose proof (getOutcome_key _ _ _ H) as Hk end.
  match goal with H : client.statusUpdateOutcome _ _ = _ |- _ =>
    apply statusUpdate_done in H as (_ & s & Hs & ->) end.
  rewrite objectKey_setUsedBy, Hk in *. cbn.
  split_and!; try done.
  - rewrite dom_insert_L. apply elem_of_dom_2 in Hs.
    apply subseteq_union_1_L. by apply singleton_subseteq_l.
  - rewrite fmap_insert. cbn. apply insert_id. by rewrite lookup_fmap, Hs.
  - apply delete_insert_eq.
Qed.

(** X7. The index depends on the set of listed identities only: two lists
    with the same identities, in whatever order and however often each is
    repeated, give the same [status.usedBy]. *)
Theorem index_set_only items1 items2 :
  (∀ x, x ∈ identity <$> items1 ↔ x ∈ identity <$> items2) →
  usedByOf items1 = usedByOf items2.
Proof. apply usedByOf_ext. Qed.

Lemma index_set_only_witness :
  usedByOf demo.tcps
  = usedByOf [ mkTenantControlPlane "ns1" "a" "9";
               mkTenantControlPlane "ns2" "b" "1" ].
Proof.
  apply index_set_only. intros x. cbn.
  rewrite !elem_of_cons, !elem_of_nil. tauto.
Defined.

(** X8. The index is never longer than the list of dependents, and it is as
    long exactly when the listed identities are pairwise distinct. *)
Theorem index_length items :
  (List.length (usedByOf items) ≤ List.length items)%nat
  ∧ (List.length (usedByOf items) = List.length items
     ↔ NoDup (identity <$> items)).
Proof.
  assert (usedByOf items ⊆+ identity <$> items) as Hsub.
  { apply NoDup_submseteq; [apply NoDup_usedByOf|].
    intros x. by rewrite elem_of_usedByOf. }
  pose proof (submseteq_length _ _ Hsub) as Hle.
  rewrite length_fmap in Hle. split; [done|]. split.
  - intros Heq.
    assert (usedByOf items ≡ₚ identity <$> items) as <-.
    { apply submseteq_length_Permutation; [done|]. rewrite length_fmap. lia. }
    apply NoDup_usedByOf.
  - intros Hnd. by rewrite <- (usedByOf_NoDup items Hnd), length_fmap.
Qed.

(** X9. With no dependent listed, a cycle whose stages all succeed stores
    an empty [status.usedBy], whatever was stored before, and sends no
    event. *)
Theorem empty_list_clears_index r request c ds :
  client.getOutcome c (reconcile.NamespacedName request) = inr ds →
  resolves c ds CACertificate →
  resolves c ds ClientCert →
  resolves c ds ClientKey →
  listFault c = None →
  updateFault c = None →
  tenantControlPlanes c = [] →
  result (Reconcile r request c) = (reconcile.Result0, None)
  ∧ usedByAt (final (Reconcile r request c)) (reconcile.NamespacedName request)
    = Some []
  ∧ sent (trace (Reconcile r request c)) = [].
Proof.
  intros Hget Hca Hcrt Hkey Hlf Huf Hnone.
  pose proof (getOutcome_key _ _ _ Hget) as Hk.
  destruct (statusUpdate_succeeds c _ ds (setUsedBy ds (usedByOf [])) Hget Huf Hk)
    as [c' Hupd].
  assert (client.listOutcome c = inr []) as Hlist
    by (unfold client.listOutcome; by rewrite Hlf, Hnone).
  rewrite (Reconcile_done r request c ds [] c') by done.
  cbn [result final trace fst snd]. split; [done|]. split.
  - apply usedByAt_written in Hupd. by rewrite objectKey_setUsedBy, Hk in Hupd.
  - by rewrite sent_done_trace.
Qed.

Lemma empty_list_clears_index_witness :
  usedByAt scenarios.abandoned demo.key = Some ["ns1/a"; "ns2/b"]
  ∧ result (Reconcile demo.r demo.request scenarios.abandoned)
    = (reconcile.Result0, None)
  ∧ usedByAt (final (Reconcile demo.r demo.request scenarios.abandoned)) demo.key
    = Some []
  ∧ sent (trace (Reconcile demo.r demo.request scenarios.abandoned)) = [].
Proof.
  split; [by vm_compute|].
  apply (empty_list_clears_index demo.r demo.request scenarios.abandoned
           (kamajiv1alpha1.mkDataStore "" "store-a" demo.spec
              (mkDataStoreStatus ["ns1/a"; "ns2/b"]))).
  - vm_compute. reflexivity.
  - by eexists.
  - by eexists.
  - by eexists.
  - reflexivity.
  - reflexivity.
  - reflexivity.
Defined.




(** X11. The status is written only once the descriptor was fetched, its
    three materials resolved and the list succeeded; the write is issued
    against the cluster the cycle started on, and the object written is the
    fetched descriptor with nothing changed but [status.usedBy], set to the
    whole index. *)
Theorem write_is_guarded r request c obj snap :
  (CallStatusUpdate obj, snap) ∈ trace (Reconcile r request c) →
  snap = c
  ∧ ∃ ds, client.getOutcome c (reconcile.NamespacedName request) = inr ds
          ∧ resolves c ds CACertificate
          ∧ resolves c ds ClientCert
          ∧ resolves c ds ClientKey
          ∧ listFault c = None
          ∧ obj = kamajiv1alpha1.mkDataStore (dsNamespace ds) (dsName ds) (Spec ds)
                    (mkDataStoreStatus (usedByOf (tenantControlPlanes c))).
Proof.
  intros Hin.
  destruct (Reconcile_Cycle r request c) as
    [ | | | | | | ds items err Hget Hca Hcrt Hkey Hlist Hupd
    | ds items c' Hget Hca Hcrt Hkey Hlist Hupd ];
    cbn [trace snd] in Hin; cbn [getContentCalls fmap list_fmap app] in Hin.
  1-6: repeat (apply elem_of_cons in Hin as [Hin|Hin]; [done|]);
       by apply elem_of_nil in Hin.
  - do 5 (apply elem_of_cons in Hin as [Hin|Hin]; [done|]).
    apply elem_of_cons in Hin as [Hin|Hin]; [|by apply elem_of_nil in Hin].
    pose proof (listOutcome_ok _ _ Hlist).
    apply listOutcome_items in Hlist. simplify_eq. eauto 10.
  - do 5 (apply elem_of_cons in Hin as [Hin|Hin]; [done|]).
    apply elem_of_cons in Hin as [Hin|Hin].
    + pose proof (listOutcome_ok _ _ Hlist).
      apply listOutcome_items in Hlist. simplify_eq. eauto 10.
    + unfold sends in Hin. apply list_elem_of_fmap in Hin as (i & Hi & _).
      done.
Qed.

Lemma write_is_guarded_witness :
  demo.healthy = demo.healthy
  ∧ ∃ ds, client.getOutcome demo.healthy demo.key = inr ds
          ∧ resolves demo.healthy ds CACertificate
          ∧ resolves demo.healthy ds ClientCert
          ∧ resolves demo.healthy ds ClientKey
          ∧ listFault demo.healthy = None
          ∧ kamajiv1alpha1.mkDataStore "" "store-a" demo.spec
              (mkDataStoreStatus ["ns1/a"; "ns2/b"])
            = kamajiv1alpha1.mkDataStore (dsNamespace ds) (dsName ds) (Spec ds)
                (mkDataStoreStatus (usedByOf (tenantControlPlanes demo.healthy))).
Proof.
  apply (write_is_guarded demo.r demo.request demo.healthy
           (kamajiv1alpha1.mkDataStore "" "store-a" demo.spec
              (mkDataStoreStatus ["ns1/a"; "ns2/b"]))
           demo.healthy).
  vm_compute. do 5 apply list_elem_of_further. apply list_elem_of_here.
Defined.

(** X12. The dependents are listed only once the descriptor was fetched and
    its three materials resolved: a validation failure never reaches the
    list. *)
Theorem list_is_guarded r request c snap :
  (CallList, snap) ∈ trace (Reconcile r request c) →
  snap = c
  ∧ ∃ ds, client.getOutcome c (reconcile.NamespacedName request) = inr ds
          ∧ resolves c ds CACertificate
          ∧ resolves c ds ClientCert
          ∧ resolves c ds ClientKey.
Proof.
  intros Hin.
  destruct (Reconcile_Cycle r request c);
    cbn [trace snd] in Hin; cbn [getContentCalls fmap list_fmap app] in Hin;
    repeat (apply elem_of_cons in Hin as [Hin|Hin];
            [try done; simplify_eq; by eauto 10|]);
    try (by apply elem_of_nil in Hin).
  unfold sends in Hin. by apply list_elem_of_fmap in Hin as (i & Hi & _).
Qed.

Lemma list_is_guarded_witness :
  demo.healthy = demo.healthy
  ∧ ∃ ds, client.getOutcome demo.healthy demo.key = inr ds
          ∧ resolves demo.healthy ds CACertificate
          ∧ resolves demo.healthy ds ClientCert
          ∧ resolves demo.healthy ds ClientKey.
Proof.
  apply (list_is_guarded demo.r demo.request demo.healthy demo.healthy).
  vm_compute. do 4 apply list_elem_of_further. apply list_elem_of_here.
Defined.

(** X13. When a material fails to resolve and those resolved before it do
    resolve, [Reconcile] returns the error of that material, wrapped with
    the message of its TLS section, whether or not the materials after it
    would resolve; the cluster is left as it is. *)
Theorem first_failure_reported r request c ds m e :
  client.getOutcome c (reconcile.NamespacedName request) = inr ds →
  resolve c (materialRef ds m) = inl e →
  (∀ m', m' ∈ earlier m → resolves c ds m') →
  result (Reconcile r request c)
  = (reconcile.Result0,
     Some (withMessage e
             match m with
             | CACertificate => "invalid Certificate Authority data"
             | ClientCert | ClientKey => "invalid Client Certificate data"
             end))
  ∧ final (Reconcile r request c) = c.
Proof.
  intros Hget Hm Hearlier.
  destruct m; cbn [earlier] in Hearlier;
    [ clear Hearlier
    | pose proof (Hearlier CACertificate ltac:(apply list_elem_of_here)) as [? ?]
    | pose proof (Hearlier CACertificate ltac:(apply list_elem_of_here)) as [? ?];
      pose proof (Hearlier ClientCert
                    ltac:(apply list_elem_of_further, list_elem_of_here)) as [? ?] ];
    cycle_cases r request c; (split; [congruence|done]).
Qed.

Lemma first_failure_reported_witness :
  result (Reconcile demo.r demo.request
            (demo.cluster ["ca.crt"; "tls.key"] None None))
  = (reconcile.Result0,
     Some (withMessage demo.missing "invalid Certificate Authority data"))
  ∧ final (Reconcile demo.r demo.request
             (demo.cluster ["ca.crt"; "tls.key"] None None))
    = demo.cluster ["ca.crt"; "tls.key"] None None.
Proof.
  apply (first_failure_reported demo.r demo.request
           (demo.cluster ["ca.crt"; "tls.key"] None None)
           demo.descriptor CACertificate demo.missing).
  - vm_compute. reflexivity.
  - reflexivity.
  - intros m' Hin. by apply elem_of_nil in Hin.
Defined.

(** X14. A delete notification for the watched name passes the predicate
    and is reconciled; the descriptor being gone, the cycle is the get
    alone and ends in success, with nothing written and nothing sent. *)
Theorem delete_event_is_noop r obj c err :
  dsName obj = ResourceName r →
  client.getOutcome c (client.objectKey obj) = inl err →
  IsNotFound err = true →
  controllerruntime.dispatch r (predicate.DeleteEvent obj) c
  = (Some (reconcile.Result0, None), c, [(CallGet (client.objectKey obj), c)]).
Proof.
  intros Hname Hget Hnf.
  unfold controllerruntime.dispatch, controllerruntime.SetupWithManager,
    watchFilter, bind, ret.
  cbn [predicate.accepts predicate.NewPredicateFuncs predicate.DeleteFunc
       predicate.subject].
  rewrite Hname, String.eqb_refl.
  pose (request := reconcile.mkRequest (client.objectKey obj)).
  change (client.getOutcome c (reconcile.NamespacedName request) = inl err)
    in Hget.
  change (reconcile.mkRequest (client.objectKey obj)) with request.
  by cycle_cases r request c.
Qed.

Lemma delete_event_is_noop_witness :
  controllerruntime.dispatch demo.r (predicate.DeleteEvent demo.descriptor)
    scenarios.deleted
  = (Some (reconcile.Result0, None), scenarios.deleted,
     [(CallGet demo.key, scenarios.deleted)]).
Proof.
  apply (delete_event_is_noop demo.r demo.descriptor scenarios.deleted
           (StatusError StatusReasonNotFound "not found")); reflexivity.
Defined.

(** ** Properties of [main] *)

Ltac main_cases w :=
  unfold main.main;
  destruct (main.InitConfig w) as [?|?] eqn:?;
  [| destruct (main.haveRestConfig w) eqn:?; cbn [negb];
     [ destruct (main.NewManager w _) eqn:?;
       [| destruct (main.setupDataStore w _ _) eqn:?;
          [| destruct (main.setupReconciler w _) eqn:?;
             [| destruct (main.AddHealthzCheck w _) eqn:?;
                [| destruct (main.AddReadyzCheck w _) eqn:?;
                   [| destruct (main.Start w) eqn:? ] ] ] ] ] | ] ];
  cbn [fst snd main.banner app].

(** X15. [main] ends with status 0 or 1. It ends with 0 exactly when every
    step of the set-up succeeded and the manager ran to its end without
    error; it ends with 1 exactly when its last action is the exit with
    status 1, and then nothing is done after that exit. *)
Theorem main_exit_status w :
  ((main.main w).2 = 0%Z ∨ (main.main w).2 = 1%Z)
  ∧ ((main.main w).2 = 0%Z
     ↔ ∃ conf, setupSucceeds w conf ∧ main.Start w = None)
  ∧ ((main.main w).2 = 1%Z ↔ last (main.main w).1 = Some (main.DoExit 1)).
Proof.
  unfold setupSucceeds, dataStoreOf, reconcilerOf.
  main_cases w; (split; [auto|]); split; split; try done;
    try (intros (conf & (? & ? & ? & ? & ? & ? & ?) & ?); simplify_eq; congruence).
  intros _. eexists. split_and!; done.
Qed.

(** X16. The manager is started last: [main] reaches the start only after
    the configuration was read, the manager created, the DataStore
    controller and then the TenantControlPlane reconciler set up, and the
    health and readiness checks registered, all without error and in that
    order. *)
Theorem main_starts_last w :
  main.DoStart ∈ (main.main w).1 →
  ∃ conf rest,
    setupSucceeds w conf
    ∧ (main.main w).1
      = main.banner (main.internal w)
        ++ [ main.DoGetConfigOrDie;
             main.DoNewManager (main.options conf);
             main.DoSetupDataStore (main.make 0) (dataStoreOf conf);
             main.DoSetupReconciler (reconcilerOf conf);
             main.DoAddHealthzCheck "healthz";
             main.DoAddReadyzCheck "readyz";
             main.DoInfo "starting manager";
             main.DoStart ]
        ++ rest
    ∧ main.DoStart ∉ rest.
Proof.
  unfold setupSucceeds, dataStoreOf, reconcilerOf.
  main_cases w; intros Hin;
    try (repeat (apply elem_of_cons in Hin as [Hin|Hin]; [done|]);
         by apply elem_of_nil in Hin).
  - eexists _, [_; _]. split; [by split_and!|]. split; [done|].
    intros Hrest.
    repeat (apply elem_of_cons in Hrest as [Hrest|Hrest]; [done|]).
    by apply elem_of_nil in Hrest.
  - eexists _, []. split; [by split_and!|]. split; [done|].
    apply not_elem_of_nil.
Qed.

Lemma main_starts_last_witness :
  ∃ conf rest,
    setupSucceeds (scenarios.world None (Some scenarios.timeout)) conf
    ∧ (main.main (scenarios.world None (Some scenarios.timeout))).1
      = main.banner scenarios.build
        ++ [ main.DoGetConfigOrDie;
             main.DoNewManager (main.options conf);
             main.DoSetupDataStore (main.make 0) (dataStoreOf conf);
             main.DoSetupReconciler (reconcilerOf conf);
             main.DoAddHealthzCheck "healthz";
             main.DoAddReadyzCheck "readyz";
             main.DoInfo "starting manager";
             main.DoStart ]
        ++ rest
    ∧ main.DoStart ∉ rest.
Proof.
  apply (main_starts_last (scenarios.world None (Some scenarios.timeout))).
  cbn. do 12 apply list_elem_of_further. apply list_elem_of_here.
Defined.

(** X17. The two controllers [main] sets up are wired together: when the
    TenantControlPlane reconciler is set up, the DataStore controller was
    set up before it, without error, on the same unbuffered channel (the
    one made by the same [make]), and the name it watches is the data store name of the reconciler; so the
    DataStore controller accepts a change notification exactly when it is
    about the data store the reconciler uses. *)
Theorem main_wiring w reconciler :
  main.DoSetupReconciler reconciler ∈ (main.main w).1 →
  ∃ r before after,
    (main.main w).1
      = before ++ [ main.DoSetupDataStore (main.TriggerChan reconciler) r;
                    main.DoSetupReconciler reconciler ] ++ after
    ∧ main.setupDataStore w (main.TriggerChan reconciler) r = None
    ∧ main.capacity (main.TriggerChan reconciler) = 0
    ∧ ResourceName r = main.DataStoreName (main.Config reconciler)
    ∧ ∀ e, predicate.accepts (controllerruntime.SetupWithManager r) e = true
           ↔ dsName (predicate.subject e)
             = main.DataStoreName (main.Config reconciler).
Proof.
  assert (∀ r e,
    predicate.accepts (controllerruntime.SetupWithManager r) e = true
    ↔ dsName (predicate.subject e) = ResourceName r) as Hfilter.
  { intros r e. unfold controllerruntime.SetupWithManager, watchFilter.
    destruct e; cbn; apply String.eqb_eq. }
  main_cases w; intros Hin;
    repeat (apply elem_of_cons in Hin as [Hin|Hin]; [try done|]);
    try (by apply elem_of_nil in Hin);
    simplify_eq;
    eexists (controllers.mkDataStore _), (_ :: _ :: _ :: _ :: _ :: _ :: [_]), _;
    (split; [cbn; reflexivity|]);
    split_and!; try done; apply Hfilter.
Qed.

Lemma main_wiring_witness :
  ∃ r before after,
    (main.main (scenarios.world (Some scenarios.timeout) None)).1
      = before ++ [ main.DoSetupDataStore
                      (main.TriggerChan (reconcilerOf scenarios.conf)) r;
                    main.DoSetupReconciler (reconcilerOf scenarios.conf) ]
               ++ after
    ∧ main.setupDataStore (scenarios.world (Some scenarios.timeout) None)
        (main.TriggerChan (reconcilerOf scenarios.conf)) r = None
    ∧ main.capacity (main.TriggerChan (reconcilerOf scenarios.conf)) = 0
    ∧ ResourceName r
      = main.DataStoreName (main.Config (reconcilerOf scenarios.conf))
    ∧ ∀ e, predicate.accepts (controllerruntime.SetupWithManager r) e = true
           ↔ dsName (predicate.subject e)
             = main.DataStoreName (main.Config (reconcilerOf scenarios.conf)).
Proof.
  apply (main_wiring (scenarios.world (Some scenarios.timeout) None)
           (reconcilerOf scenarios.conf)).
  cbn. do 8 apply list_elem_of_further. apply list_elem_of_here.
Defined.

(** X18. What a successful cycle wrote is what the next get reads: after a
    cycle that found the descriptor and returned no error, getting the same
    identity yields the descriptor with its name and spec as before and
    [status.usedBy] equal to the index of the listed dependents. *)
Theorem written_status_is_read_back r request c ds :
  client.getOutcome c (reconcile.NamespacedName request) = inr ds →
  (result (Reconcile r request c)).2 = None →
  client.getOutcome (final (Reconcile r request c))
                    (reconcile.NamespacedName request)
  = inr (kamajiv1alpha1.mkDataStore (dsNamespace ds) (dsName ds) (Spec ds)
           (mkDataStoreStatus (usedByOf (tenantControlPlanes c)))).
Proof.
  intros Hget Hok. cycle_cases r request c.
  match goal with H : client.listOutcome _ = _ |- _ =>
    apply listOutcome_items in H; subst end.
  match goal with H : client.statusUpdateOutcome _ _ = _ |- _ =>
    by destruct (after_status_write _ _ _ _ _ Hget H) as [-> _] end.
Qed.

Lemma written_status_is_read_back_witness :
  client.getOutcome (final (Reconcile demo.r demo.request demo.healthy)) demo.key
  = inr (kamajiv1alpha1.mkDataStore "" "store-a" demo.spec
           (mkDataStoreStatus ["ns1/a"; "ns2/b"])).
Proof.
  apply (written_status_is_read_back demo.r demo.request demo.healthy
           demo.descriptor).
  - vm_compute. reflexivity.
  - vm_compute. reflexivity.
Defined.

(** Channels made by different calls of [make] are different channels. *)
Lemma make_fresh m n : m ≠ n → main.make m ≠ main.make n.
Proof. unfold main.make. intros Hne Heq. by simplify_eq. Qed.

(** ** Two cycles in a row *)

Lemma getOutcome_relisted c items key :
  client.getOutcome (relisted c items) key = client.getOutcome c key.
Proof. done. Qed.

Lemma listOutcome_relisted c items :
  client.listOutcome (relisted c items)
  = match listFault c with Some e => inl e | None => inr items end.
Proof. done. Qed.

Lemma statusUpdate_relisted c items ds :
  client.statusUpdateOutcome (relisted c items) ds
  = ((client.statusUpdateOutcome c ds).1,
     relisted (client.statusUpdateOutcome c ds).2 items).
Proof.
  unfold client.statusUpdateOutcome. cbn [relisted updateFault datastores].
  by repeat case_match.
Qed.

Lemma relisted_same c : relisted c (tenantControlPlanes c) = c.
Proof. by destruct c. Qed.

Lemma final_tenantControlPlanes r request c :
  tenantControlPlanes (final (Reconcile r request c)) = tenantControlPlanes c.
Proof.
  cycle_cases r request c; try done.
  match goal with H : client.statusUpdateOutcome _ _ = _ |- _ =>
    by apply statusUpdate_done in H as (_ & s & _ & ->) end.
Qed.

(** A cycle on the same state listed in another order: the result and the
    descriptors stored are the same, the events are the same up to order. *)
Lemma Reconcile_relisted r request c items :
  items ≡ₚ tenantControlPlanes c →
  result (Reconcile r request (relisted c items)) = result (Reconcile r request c)
  ∧ datastores (final (Reconcile r request (relisted c items)))
    = datastores (final (Reconcile r request c))
  ∧ sent (trace (Reconcile r request (relisted c items)))
    ≡ₚ sent (trace (Reconcile r request c)).
Proof.
  intros Hperm.
  pose proof (usedByOf_Permutation_invariant _ _ Hperm) as Hidx.
  destruct (Reconcile_Cycle r request c) as
    [ err Hget Hnf | err Hget Hnf | ds err Hget Hca
    | ds err Hget Hca Hcrt | ds err Hget Hca Hcrt Hkey
    | ds err Hget Hca Hcrt Hkey Hlist
    | ds items0 err Hget Hca Hcrt Hkey Hlist Hupd
    | ds items0 c' Hget Hca Hcrt Hkey Hlist Hupd ];
    pose proof (Hget : client.getOutcome (relisted c items) _ = _) as Hget';
    try pose proof (Hca : resolves (relisted c items) ds CACertificate) as Hca';
    try pose proof (Hca : resolve (relisted c items) _ = inl _) as Hca';
    try pose proof (Hcrt : resolves (relisted c items) ds ClientCert) as Hcrt';
    try pose proof (Hcrt : resolve (relisted c items) _ = inl _) as Hcrt';
    try pose proof (Hkey : resolves (relisted c items) ds ClientKey) as Hkey';
    try pose proof (Hkey : resolve (relisted c items) _ = inl _) as Hkey';
    cbn [result final trace fst snd].
  - cycle_cases r request (relisted c items);
      (split; [congruence|by split]).
  - cycle_cases r request (relisted c items);
      (split; [congruence|by split]).
  - cycle_cases r request (relisted c items);
      (split; [congruence|by split]).
  - cycle_cases r request (relisted c items);
      (split; [congruence|by split]).
  - cycle_cases r request (relisted c items);
      (split; [congruence|by split]).
  - assert (client.listOutcome (relisted c items) = inl err) as Hlist'.
    { rewrite listOutcome_relisted. unfold client.listOutcome in Hlist.
      destruct (listFault c); by simplify_eq. }
    cycle_cases r request (relisted c items);
      (split; [congruence|by split]).
  - pose proof (listOutcome_ok _ _ Hlist) as Hlf.
    apply listOutcome_items in Hlist as ->.
    assert (client.listOutcome (relisted c items) = inr items) as Hlist'
      by (by rewrite listOutcome_relisted, Hlf).
    assert (client.statusUpdateOutcome (relisted c items)
              (setUsedBy ds (usedByOf items)) = (Some err, relisted c items))
      as Hupd' by (by rewrite statusUpdate_relisted, Hidx, Hupd).
    cycle_cases r request (relisted c items);
      (split; [congruence|by split]).
  - pose proof (listOutcome_ok _ _ Hlist) as Hlf.
    apply listOutcome_items in Hlist as ->.
    assert (client.listOutcome (relisted c items) = inr items) as Hlist'
      by (by rewrite listOutcome_relisted, Hlf).
    assert (client.statusUpdateOutcome (relisted c items)
              (setUsedBy ds (usedByOf items)) = (None, relisted c' items))
      as Hupd' by (by rewrite statusUpdate_relisted, Hidx, Hupd).
    rewrite (Reconcile_done r request (relisted c items) ds items
               (relisted c' items)) by done.
    cbn [result final trace fst snd]. split; [done|]. split; [done|].
    rewrite !sent_done_trace. by rewrite Hperm.
Qed.

(** C7, as the claim states it, fails. Between two cycles on the same
    identity nothing changes: the descriptors stored and the dependents are
    the same, but the second list call answers ns2/b before ns1/a where the
    first answered ns1/a before ns2/b. Both cycles store the same
    [status.usedBy], yet the first sends the events for ns1/a, ns2/b and the
    second for ns2/b, ns1/a: the ordered notification sequences differ. *)
Lemma idempotent_order_counterexample :
  let run1 := Reconcile demo.r demo.request demo.tidy in
  let between :=
    relisted (final run1) (reverse (tenantControlPlanes demo.tidy)) in
  let run2 := Reconcile demo.r demo.request between in
  datastores between = datastores (final run1)
  ∧ tenantControlPlanes between ≡ₚ tenantControlPlanes (final run1)
  ∧ usedByAt (final run2) demo.key = usedByAt (final run1) demo.key
  ∧ notified <$> sent (trace run1) = ["ns1/a"; "ns2/b"]
  ∧ notified <$> sent (trace run2) = ["ns2/b"; "ns1/a"]
  ∧ sent (trace run2) ≠ sent (trace run1).
Proof.
  intros run1 between run2. split_and!.
  - done.
  - subst between run1. cbn [relisted tenantControlPlanes].
    rewrite final_tenantControlPlanes. apply reverse_Permutation.
  - by vm_compute.
  - by vm_compute.
  - by vm_compute.
  - vm_compute. discriminate.
Qed.

(** C7, as the code has it. Of two cycles in a row on the same identity,
    with the descriptors and the dependents unchanged in between and the
    second list call answering the dependents in whatever order, the second
    stores the same [status.usedBy] and returns the same result as the
    first, and sends the same events up to their order; it sends them in
    the same order when the list call answers in the same order. *)
Theorem reconcile_idempotent_up_to_order r request c items :
  items ≡ₚ tenantControlPlanes c →
  let run1 := Reconcile r request c in
  let run2 := Reconcile r request (relisted (final run1) items) in
  usedByAt (final run2) (reconcile.NamespacedName request)
    = usedByAt (final run1) (reconcile.NamespacedName request)
  ∧ result run2 = result run1
  ∧ sent (trace run2) ≡ₚ sent (trace run1)
  ∧ (items = tenantControlPlanes c → sent (trace run2) = sent (trace run1)).
Proof.
  intros Hperm run1 run2. subst run2 run1.
  pose proof (final_tenantControlPlanes r request c) as Htcp.
  destruct (Reconcile_relisted r request (final (Reconcile r request c)) items)
    as (Hres & Hds & Hsent); [by rewrite Htcp|].
  pose proof (reconcile_twice_same_order r request c) as Hsame.
  cbv zeta in Hsame. destruct Hsame as (Hu & Hs & Hr & Hf).
  split_and!.
  - unfold usedByAt in *. by rewrite Hds.
  - by rewrite Hres.
  - by rewrite Hsent, Hs.
  - intros ->. by rewrite <- Htcp, relisted_same.
Qed.

Lemma reconcile_idempotent_up_to_order_witness :
  let run1 := Reconcile demo.r demo.request demo.tidy in
  let run2 :=
    Reconcile demo.r demo.request
      (relisted (final run1) (reverse (tenantControlPlanes demo.tidy))) in
  usedByAt (final run2) demo.key = usedByAt (final run1) demo.key
  ∧ result run2 = result run1
  ∧ sent (trace run2) ≡ₚ sent (trace run1)
  ∧ (reverse (tenantControlPlanes demo.tidy) = tenantControlPlanes demo.tidy →
     sent (trace run2) = sent (trace run1)).
Proof.
  apply (reconcile_idempotent_up_to_order demo.r demo.request demo.tidy
           (reverse (tenantControlPlanes demo.tidy))).
  apply reverse_Permutation.
Defined.
